(** * The Dummy traffic generator of vswitchperf, verified

    A shallow embedding of [tools/pkt_gen/dummy/dummy.py]: the console
    question-and-answer loop ([_get_user_traffic_stat]), the collector
    ([get_user_traffic]) and the three test methods of the [Dummy] class,
    followed by the properties the specification states about them.

    Modelling choices, all taken from the source:
    - the operator is a list of lines waiting on stdin; [input()] takes the
      head, and a computation that needs a line when none is left is
      [Blocked] (the program never times out); a line is a [string] holding
      the UTF-8 bytes of the text typed;
    - what is written on stdout is a trace of [event]s, one constructor per
      [input] prompt or [print] call of the source;
    - Python integers are [Z]; Python floats are IEEE binary64 values,
      [spec_float] at precision 53 and exponent bound 1024;
    - exceptions are values of [exn]; a method either returns, blocks or
      raises;
    - memory is not modelled, but for the one step that may ask for more
      of it than the inputs take, the repetition of a string by the burst
      test: whether the interpreter obtains it is a parameter of the
      model. *)

From Stdlib Require Import ZArith Bool List String Ascii Lia.
From Stdlib Require Import DecimalZ DecimalPos.
From Stdlib Require Import Floats.SpecFloat.
Import ListNotations.

Local Open Scope string_scope.
Local Open Scope Z_scope.
Local Open Scope list_scope.
#[local] Set Warnings "-register-all".

(** ** Python text: [str.lower] and [int(str)] *)

Module PyStr.

Definition code (c : ascii) : Z := Z.of_nat (nat_of_ascii c).

Definition is_upper (c : ascii) : bool := (65 <=? code c) && (code c <=? 90).

Definition lower_char (c : ascii) : ascii :=
  if is_upper c then ascii_of_nat (nat_of_ascii c + 32) else c.

(** [str.lower()].  Only the letters A-Z are mapped, the bytes of a
    character outside ASCII being kept: no such character lowers to one of
    the letters of 'yes' or 'no', which is all the source compares the
    result with. *)
Fixpoint lower (s : string) : string :=
  match s with
  | EmptyString => EmptyString
  | String c r => String (lower_char c) (lower r)
  end.

(** The text of a line is held as the bytes of its UTF-8 encoding.
    [utf8_decode] gives its characters, as code points; bytes that are no
    UTF-8 encoding give [None]. *)
Definition continuation (b : Z) : bool := (128 <=? b) && (b <=? 191).

Fixpoint utf8_decode (l : list ascii) : option (list Z) :=
  match l with
  | [] => Some []
  | a0 :: r0 =>
      let b0 := code a0 in
      if b0 <? 128 then option_map (cons b0) (utf8_decode r0)
      else
        match r0 with
        | [] => None
        | a1 :: r1 =>
            let b1 := code a1 in
            if (194 <=? b0) && (b0 <=? 223) then
              if continuation b1
              then option_map (cons ((b0 - 192) * 64 + (b1 - 128)))
                              (utf8_decode r1)
              else None
            else
              match r1 with
              | [] => None
              | a2 :: r2 =>
                  let b2 := code a2 in
                  if (224 <=? b0) && (b0 <=? 239) then
                    if continuation b1 && continuation b2
                       && (negb (b0 =? 224) || (160 <=? b1))
                       && (negb (b0 =? 237) || (b1 <=? 159))
                    then option_map
                           (cons ((b0 - 224) * 4096 + (b1 - 128) * 64
                                  + (b2 - 128)))
                           (utf8_decode r2)
                    else None
                  else
                    match r2 with
                    | [] => None
                    | a3 :: r3 =>
                        let b3 := code a3 in
                        if (240 <=? b0) && (b0 <=? 244)
                           && continuation b1 && continuation b2
                           && continuation b3
                           && (negb (b0 =? 240) || (144 <=? b1))
                           && (negb (b0 =? 244) || (b1 <=? 143))
                        then option_map
                               (cons ((b0 - 240) * 262144 + (b1 - 128) * 4096
                                      + (b2 - 128) * 64 + (b3 - 128)))
                               (utf8_decode r3)
                        else None
                    end
              end
        end
  end.

(** The characters [int] skips at both ends of its argument: the blanks of
    ASCII, and the Unicode white space beyond ASCII. *)
Definition is_space (c : Z) : bool :=
  ((9 <=? c) && (c <=? 13)) || (c =? 32)
  || (c =? 133) || (c =? 160) || (c =? 5760)
  || ((8192 <=? c) && (c <=? 8202))
  || (c =? 8232) || (c =? 8233) || (c =? 8239) || (c =? 8287)
  || (c =? 12288).

(** The code points of the digit zero of every script with decimal digits
    (Unicode 14.0); the nine other digits follow each of them. *)
Definition decimal_zeros : list Z :=
  [48; 1632; 1776; 1984; 2406; 2534; 2662; 2790; 2918; 3046; 3174; 3302; 3430;
    3558; 3664; 3792; 3872; 4160; 4240; 6112; 6160; 6470; 6608; 6784; 6800;
    6992; 7088; 7232; 7248; 42528; 43216; 43264; 43472; 43504; 43600; 44016;
    65296; 66720; 68912; 69734; 69872; 69942; 70096; 70384; 70736; 70864;
    71248; 71360; 71472; 71904; 72016; 72784; 73040; 73120; 92768; 92864;
    93008; 120782; 120792; 120802; 120812; 120822; 123200; 123632; 125264;
    130032].

Definition digit_of (c : Z) : option Z :=
  match find (fun z => (z <=? c) && (c <? z + 10)) decimal_zeros with
  | Some z => Some (c - z)
  | None => None
  end.

Fixpoint lstrip (l : list Z) : list Z :=
  match l with
  | c :: r => if is_space c then lstrip r else l
  | [] => []
  end.

Definition strip (l : list Z) : list Z :=
  rev (lstrip (rev (lstrip l))).

(** Decimal digits, a single underscore (code 95) allowed between two
    digits.  [seen] tells whether the previous character was a digit. *)
Fixpoint digits (acc : Z) (seen : bool) (l : list Z) : option Z :=
  match l with
  | [] => if seen then Some acc else None
  | c :: r =>
      match digit_of c with
      | Some d => digits (10 * acc + d) true r
      | None => if (c =? 95) && seen then digits acc false r else None
      end
  end.

(** [int(s)] for a string [s]: blanks are dropped at both ends, then an
    optional sign and the digits are read in base ten, a single underscore
    being allowed between two digits.  [None] stands for [ValueError].  The
    optional cap an interpreter may put on the number of digits is not
    modelled. *)
Definition py_int (s : string) : option Z :=
  match utf8_decode (list_ascii_of_string s) with
  | None => None
  | Some text =>
      match strip text with
      | 45 :: r => option_map Z.opp (digits 0 false r)
      | 43 :: r => digits 0 false r
      | l => digits 0 false l
      end
  end.

(** [len(s)], the number of characters of [s]. *)
Definition text_length (s : string) : Z :=
  match utf8_decode (list_ascii_of_string s) with
  | Some text => Z.of_nat (List.length text)
  | None => Z.of_nat (String.length s)
  end.

(** Truth value of a string: [not s] holds exactly of the empty one. *)
Definition truthy (s : string) : bool :=
  match s with EmptyString => false | _ => true end.

(** [x in vals] for a tuple whose members are strings or [None]. *)
Definition member (x : string) (vals : list (option string)) : bool :=
  existsb (fun v => match v with
                    | Some y => String.eqb x y
                    | None => false
                    end) vals.

End PyStr.
Import PyStr.

(** ** Python values held by a traffic configuration *)

Inductive pyval : Type :=
| PNone
| PBool (b : bool)
| PInt (n : Z)
| PFloat (f : spec_float)
| PStr (s : string)
| PDict (d : list (string * pyval)).

Definition dict := list (string * pyval).

Inductive exn : Type :=
| KeyError (k : string)
| TypeError
| IndexError
| OverflowError
| ZeroDivisionError
| MemoryError
| MergeError (msg : string).

Inductive result (A : Type) : Type :=
| Ok (a : A)
| Err (e : exn).
Arguments Ok {A} a.
Arguments Err {A} e.

(** ** The console *)

(** The second argument of [get_user_traffic], one constructor per format
    string of the source:
    ['%dpkts, %dmS'], ['%dmS, %dmpps, multistream %s'] and
    ['%d trials, %d seconds iterations, %f packet loss, multistream %s']. *)
Inductive stream_conf : Type :=
| BurstConf (numpkts time : Z)
| ContConf (time framerate : Z) (multistream : bool)
| ThroughputConf (trials duration : Z) (lossrate : spec_float)
                 (multistream : bool).

Inductive event : Type :=
| AskStat (stat_type : string)
    (* input('What was the result for \'%s\'? ' % stat_type) *)
| AskCorrect (n : Z)
    (* input('Is \'%d\' correct? ' % result) *)
| SayInvalid
    (* print('That was not a valid integer result. Try again.') *)
| SayYesNo
    (* print('Please respond with \'yes\' or \'no\' ', end='') *)
| Announce (traffic_type : string) (traffic_conf : stream_conf)
           (flow_conf : dict).
    (* print('Please send \'%s\' traffic with the following stream config:
       ...' % (traffic_type, traffic_conf, json.dumps(flow_conf, indent=4))) *)

Inductive status (A : Type) : Type :=
| Done (a : A) (rest : list string)
| Blocked
| Raised (e : exn) (rest : list string).
Arguments Done {A} a rest.
Arguments Blocked {A}.
Arguments Raised {A} e rest.

Definition run (A : Type) : Type := list event * status A.

(** A console computation: from the lines the operator will type to what is
    printed and how the computation ends. *)
Definition io (A : Type) : Type := list string -> run A.

Definition emit {A} (tr : list event) (r : run A) : run A :=
  (tr ++ fst r, snd r).

Definition ret {A} (a : A) : io A := fun ins => ([], Done a ins).

Definition raise {A} (e : exn) : io A := fun ins => ([], Raised e ins).

Definition print (e : event) : io unit := fun ins => ([e], Done tt ins).

Definition bind {A B} (m : io A) (k : A -> io B) : io B :=
  fun ins =>
    match m ins with
    | (tr, Done a rest) => emit tr (k a rest)
    | (tr, Blocked) => (tr, Blocked)
    | (tr, Raised e rest) => (tr, Raised e rest)
    end.

Definition lift {A} (r : result A) : io A :=
  match r with
  | Ok a => ret a
  | Err e => raise e
  end.

Declare Scope io_scope.
Delimit Scope io_scope with io.
Notation "x <- m ;; k" := (bind m (fun x => k))
  (at level 61, m at next level, right associativity) : io_scope.
Notation "m ;;; k" := (bind m (fun _ => k))
  (at level 61, right associativity) : io_scope.

(** ** [_get_user_traffic_stat] *)

Definition true_vals : list (option string) :=
  [Some "yes"; Some "y"; Some "ye"; None].
Definition false_vals : list (option string) := [Some "no"; Some "n"].

Definition accepts (choice : string) : bool :=
  negb (truthy choice) || member choice true_vals.

Definition rejects (choice : string) : bool :=
  truthy choice && member choice false_vals.

(** The outer [while True] is the fixpoint, the inner one the local [fix];
    [continue] and [break] are the two recursive calls of the outer loop. *)
Fixpoint _get_user_traffic_stat (stat_type : string) (ins : list string)
  {struct ins} : run Z :=
  match ins with
  | [] => ([AskStat stat_type], Blocked)
  | line :: rest =>
      match py_int line with
      | None =>
          emit [AskStat stat_type; SayInvalid]
               (_get_user_traffic_stat stat_type rest)
      | Some result =>
          emit [AskStat stat_type]
            ((fix confirm (ins' : list string) : run Z :=
                match ins' with
                | [] => ([AskCorrect result], Blocked)
                | answer :: rest' =>
                    let choice := lower answer in
                    if accepts choice then
                      ([AskCorrect result], Done result rest')
                    else if rejects choice then
                      emit [AskCorrect result]
                           (_get_user_traffic_stat stat_type rest')
                    else
                      emit [AskCorrect result; SayYesNo] (confirm rest')
                end) rest)
      end
  end.

(** The inner loop on its own, for a value [result] already parsed. *)
Fixpoint confirm_loop (stat_type : string) (result : Z) (ins : list string)
  : run Z :=
  match ins with
  | [] => ([AskCorrect result], Blocked)
  | answer :: rest =>
      let choice := lower answer in
      if accepts choice then ([AskCorrect result], Done result rest)
      else if rejects choice then
        emit [AskCorrect result] (_get_user_traffic_stat stat_type rest)
      else emit [AskCorrect result; SayYesNo]
                (confirm_loop stat_type result rest)
  end.

(** ** [get_user_traffic] *)

(** The [for stat in traffic_stats] loop, [results] being the list built so
    far. *)
Fixpoint collect (traffic_stats : list string) (results : list Z)
  : io (list Z) :=
  match traffic_stats with
  | [] => ret results
  | stat :: more =>
      (r <- _get_user_traffic_stat stat ;;
       collect more (results ++ [r]))%io
  end.

Definition get_user_traffic (traffic_type : string)
  (traffic_conf : stream_conf) (flow_conf : dict)
  (traffic_stats : list string) : io (list Z) :=
  (print (Announce traffic_type traffic_conf flow_conf) ;;;
   collect traffic_stats [])%io.

(** ** Expressions of the test methods *)

Definition rbind {A B} (r : result A) (k : A -> result B) : result B :=
  match r with
  | Ok a => k a
  | Err e => Err e
  end.

Declare Scope result_scope.
Delimit Scope result_scope with res.
Notation "x <-- r ;; k" := (rbind r (fun x => k))
  (at level 61, r at next level, right associativity) : result_scope.

Module Py.

Definition prec : Z := 53.
Definition emax : Z := 1024.

(** [float(n)] and the conversion of an integer operand of a float
    operation: the nearest double, ties to even; an integer beyond the
    range of a double raises [OverflowError]. *)
Definition float_of_int (n : Z) : result spec_float :=
  match binary_normalize prec emax n 0 false with
  | S754_infinity _ => Err OverflowError
  | f => Ok f
  end.

Definition int_of_bool (b : bool) : Z := if b then 1 else 0.

(** [a / b] for a float [a] and an integer [b]: [b] is converted to a
    double, which overflows for a huge [b], and a divisor equal to zero
    raises [ZeroDivisionError]. *)
Definition truediv (a : spec_float) (b : Z) : result spec_float :=
  (b' <-- float_of_int b ;;
   if b =? 0 then Err ZeroDivisionError
   else Ok (SFdiv prec emax a b'))%res.

(** [a * v] for a float [a] and any value [v]. *)
Definition mul_float (a : spec_float) (v : pyval) : result spec_float :=
  match v with
  | PInt n => (n' <-- float_of_int n ;; Ok (SFmul prec emax a n'))%res
  | PBool b =>
      (n' <-- float_of_int (int_of_bool b) ;; Ok (SFmul prec emax a n'))%res
  | PFloat f => Ok (SFmul prec emax a f)
  | PNone | PStr _ | PDict _ => Err TypeError
  end.

Fixpoint repeat_string (s : string) (n : nat) : string :=
  match n with
  | O => EmptyString
  | S k => (s ++ repeat_string s k)%string
  end.

(** [sys.maxsize], the largest index and the largest length of a string, on
    a 64-bit build. *)
Definition max_size : Z := 2 ^ 63 - 1.

(** [s * n] for a string [s] and an integer [n].  The count must be an
    index-sized integer; a count below one gives the empty string and a
    count of one gives [s]; the result must not be longer than a string can
    be; and, unless it is empty, the interpreter must obtain the memory for
    it: [alloc k] tells whether it does for a string of [k] characters, and
    the repetition raises [MemoryError] when it does not. *)
Definition repeat_text (alloc : Z -> bool) (s : string) (n : Z)
  : result string :=
  if (n <? - 2 ^ 63) || (max_size <? n) then Err OverflowError
  else if n <? 1 then Ok EmptyString
  else if n =? 1 then Ok s
  else if max_size / n <? text_length s then Err OverflowError
  else if text_length s =? 0 then Ok s
  else if alloc (text_length s * n)
       then Ok (repeat_string s (Z.to_nat n))
       else Err MemoryError.

(** [v * n] for any value [v] and an integer [n]. *)
Definition mul_int (alloc : Z -> bool) (v : pyval) (n : Z) : result pyval :=
  match v with
  | PInt a => Ok (PInt (a * n))
  | PBool b => Ok (PInt (int_of_bool b * n))
  | PFloat f =>
      (n' <-- float_of_int n ;; Ok (PFloat (SFmul prec emax f n')))%res
  | PStr s => (t <-- repeat_text alloc s n ;; Ok (PStr t))%res
  | PNone | PDict _ => Err TypeError
  end.

Fixpoint lookup (k : string) (d : dict) : option pyval :=
  match d with
  | [] => None
  | (k', v) :: r => if String.eqb k k' then Some v else lookup k r
  end.

(** Truth value of a dictionary. *)
Definition nonempty (d : dict) : bool :=
  match d with [] => false | _ :: _ => true end.

(** [v[k]] for a string key [k]. *)
Definition getitem (v : pyval) (k : string) : result pyval :=
  match v with
  | PDict d =>
      match lookup k d with
      | Some x => Ok x
      | None => Err (KeyError k)
      end
  | _ => Err TypeError
  end.

(** [results[i]] for a list and a non-negative literal index. *)
Definition index (results : list Z) (i : nat) : result Z :=
  match nth_error results i with
  | Some x => Ok x
  | None => Err IndexError
  end.

End Py.

(** Modelled from the spec: [core.results.results_constants.ResultsConstants]
    is not among the sources; the specification calls it a fixed enumeration
    of result-key names, of which the methods use these fifteen. *)
Inductive ResultsConstants : Type :=
| TX_FRAMES | RX_FRAMES | TX_BYTES | RX_BYTES | PAYLOAD_ERR | SEQ_ERR
| THROUGHPUT_TX_FPS | THROUGHPUT_RX_FPS
| THROUGHPUT_TX_MBPS | THROUGHPUT_RX_MBPS
| THROUGHPUT_TX_PERCENT | THROUGHPUT_RX_PERCENT
| MIN_LATENCY_NS | MAX_LATENCY_NS | AVG_LATENCY_NS.

Definition ResultsConstants_eqb (a b : ResultsConstants) : bool :=
  match a, b with
  | TX_FRAMES, TX_FRAMES | RX_FRAMES, RX_FRAMES | TX_BYTES, TX_BYTES
  | RX_BYTES, RX_BYTES | PAYLOAD_ERR, PAYLOAD_ERR | SEQ_ERR, SEQ_ERR
  | THROUGHPUT_TX_FPS, THROUGHPUT_TX_FPS
  | THROUGHPUT_RX_FPS, THROUGHPUT_RX_FPS
  | THROUGHPUT_TX_MBPS, THROUGHPUT_TX_MBPS
  | THROUGHPUT_RX_MBPS, THROUGHPUT_RX_MBPS
  | THROUGHPUT_TX_PERCENT, THROUGHPUT_TX_PERCENT
  | THROUGHPUT_RX_PERCENT, THROUGHPUT_RX_PERCENT
  | MIN_LATENCY_NS, MIN_LATENCY_NS | MAX_LATENCY_NS, MAX_LATENCY_NS
  | AVG_LATENCY_NS, AVG_LATENCY_NS => true
  | _, _ => false
  end.

(** The [result] dictionary of a method, in insertion order. *)
Definition record := list (ResultsConstants * pyval).

(** [result[k] = v] *)
Fixpoint setitem (k : ResultsConstants) (v : pyval) (d : record) : record :=
  match d with
  | [] => [(k, v)]
  | (k', v') :: r =>
      if ResultsConstants_eqb k k' then (k, v) :: r
      else (k', v') :: setitem k v r
  end.

Fixpoint field (k : ResultsConstants) (d : record) : option pyval :=
  match d with
  | [] => None
  | (k', v) :: r => if ResultsConstants_eqb k k' then Some v else field k r
  end.

(** Modelled from the spec: [trafficgen.BurstResult] is not among the
    sources; the specification describes the value returned by the burst
    test as a structured result of the three statistics requested, received
    frames, payload errors and sequence errors. *)
Record BurstResult : Type := mkBurstResult {
  frames_rx : Z;
  payload_err : Z;
  seq_err : Z
}.

(** [BurstResult] called on the unpacked list [results]: the list is spread
    over the positional parameters, a list of another length raises
    [TypeError]. *)
Definition BurstResult_of (results : list Z) : result BurstResult :=
  match results with
  | [a; b; c] => Ok (mkBurstResult a b c)
  | _ => Err TypeError
  end.

(** ** The [Dummy] class *)

Import Py.

Section Dummy.

(** The machine.  Repeating a string is the one step of the module that
    may ask for more memory than its inputs take: [can_allocate key k] tells
    whether the interpreter obtains the memory for the string of [k]
    characters computed for the entry [key] of the burst dictionary. *)
Variable can_allocate : ResultsConstants -> Z -> bool.

(** [self.traffic_defaults], inherited from [ITrafficGenerator], and
    [trafficgen.merge_spec] are defined outside this module. *)
Variable traffic_defaults : dict.
Variable merge_spec : dict -> dict -> result dict.

(** The first lines of each method:
    [traffic_ = self.traffic_defaults.copy()] and, [if traffic:],
    [traffic_ = trafficgen.merge_spec(traffic_, traffic)].  [None] and the
    empty dictionary are the false values of [traffic]. *)
Definition effective_traffic (traffic : option dict) : result dict :=
  let traffic_ := traffic_defaults in
  match traffic with
  | Some t => if nonempty t then merge_spec traffic_ t else Ok traffic_
  | None => Ok traffic_
  end.

(** [traffic_['l2']['framesize']] *)
Definition framesize_of (traffic_ : dict) : result pyval :=
  (l2 <-- getitem (PDict traffic_) "l2" ;; getitem l2 "framesize")%res.

(** The local variables of [send_burst_traffic] when it returns: the
    dictionary [result] and the value handed to [return]. *)
Record burst_frame : Type := mkBurstFrame {
  burst_result : record;
  burst_returned : BurstResult
}.

Definition send_burst_traffic_frame (traffic : option dict)
  (numpkts time framerate : Z) : io burst_frame :=
  (traffic_ <- lift (effective_traffic traffic) ;;
   let result := [] in
   results <- get_user_traffic "burst" (BurstConf numpkts time) traffic_
                ["frames rx"; "payload errors"; "sequence errors"] ;;
   let result := setitem TX_FRAMES (PInt numpkts) result in
   r0 <- lift (index results 0) ;;
   let result := setitem RX_FRAMES (PInt r0) result in
   tx_bytes <- lift (fs <-- framesize_of traffic_ ;;
                     mul_int (can_allocate TX_BYTES) fs numpkts)%res ;;
   let result := setitem TX_BYTES tx_bytes result in
   rx_bytes <- lift (fs <-- framesize_of traffic_ ;;
                     r0 <-- index results 0 ;;
                     mul_int (can_allocate RX_BYTES) fs r0)%res ;;
   let result := setitem RX_BYTES rx_bytes result in
   r1 <- lift (index results 1) ;;
   let result := setitem PAYLOAD_ERR (PInt r1) result in
   r2 <- lift (index results 2) ;;
   let result := setitem SEQ_ERR (PInt r2) result in
   returned <- lift (BurstResult_of results) ;;
   ret (mkBurstFrame result returned))%io.

Definition send_burst_traffic (traffic : option dict)
  (numpkts time framerate : Z) : io BurstResult :=
  (frame <- send_burst_traffic_frame traffic numpkts time framerate ;;
   ret (burst_returned frame))%io.

(** [float(results[i])] *)
Definition float_at (results : list Z) (i : nat) : result spec_float :=
  (r <-- index results i ;; float_of_int r)%res.

Definition send_cont_traffic (traffic : option dict)
  (time framerate : Z) (multistream : bool) : io record :=
  (traffic_ <- lift (effective_traffic traffic) ;;
   let result := [] in
   results <- get_user_traffic "continuous"
                (ContConf time framerate multistream) traffic_
                ["frames tx"; "frames rx"; "min latency"; "max latency";
                 "avg latency"] ;;
   framesize <- lift (framesize_of traffic_) ;;
   v <- lift (f <-- float_at results 0 ;; truediv f time)%res ;;
   let result := setitem THROUGHPUT_TX_FPS (PFloat v) result in
   v <- lift (f <-- float_at results 1 ;; truediv f time)%res ;;
   let result := setitem THROUGHPUT_RX_FPS (PFloat v) result in
   v <- lift (f <-- float_at results 0 ;; p <-- mul_float f framesize ;;
              truediv p time)%res ;;
   let result := setitem THROUGHPUT_TX_MBPS (PFloat v) result in
   v <- lift (f <-- float_at results 1 ;; p <-- mul_float f framesize ;;
              truediv p time)%res ;;
   let result := setitem THROUGHPUT_RX_MBPS (PFloat v) result in
   let result := setitem THROUGHPUT_TX_PERCENT (PFloat (S754_zero false))
                         result in
   let result := setitem THROUGHPUT_RX_PERCENT (PFloat (S754_zero false))
                         result in
   v <- lift (float_at results 2) ;;
   let result := setitem MIN_LATENCY_NS (PFloat v) result in
   v <- lift (float_at results 3) ;;
   let result := setitem MAX_LATENCY_NS (PFloat v) result in
   v <- lift (float_at results 4) ;;
   let result := setitem AVG_LATENCY_NS (PFloat v) result in
   ret result)%io.

Definition send_rfc2544_throughput (traffic : option dict)
  (trials duration : Z) (lossrate : spec_float) (multistream : bool)
  : io record :=
  (traffic_ <- lift (effective_traffic traffic) ;;
   let result := [] in
   results <- get_user_traffic "throughput"
                (ThroughputConf trials duration lossrate multistream)
                traffic_
                ["frames tx"; "frames rx"; "min latency"; "max latency";
                 "avg latency"] ;;
   framesize <- lift (framesize_of traffic_) ;;
   v <- lift (f <-- float_at results 0 ;; truediv f duration)%res ;;
   let result := setitem THROUGHPUT_TX_FPS (PFloat v) result in
   v <- lift (f <-- float_at results 1 ;; truediv f duration)%res ;;
   let result := setitem THROUGHPUT_RX_FPS (PFloat v) result in
   v <- lift (f <-- float_at results 0 ;; p <-- mul_float f framesize ;;
              truediv p duration)%res ;;
   let result := setitem THROUGHPUT_TX_MBPS (PFloat v) result in
   v <- lift (f <-- float_at results 1 ;; p <-- mul_float f framesize ;;
              truediv p duration)%res ;;
   let result := setitem THROUGHPUT_RX_MBPS (PFloat v) result in
   let result := setitem THROUGHPUT_TX_PERCENT (PFloat (S754_zero false))
                         result in
   let result := setitem THROUGHPUT_RX_PERCENT (PFloat (S754_zero false))
                         result in
   v <- lift (float_at results 2) ;;
   let result := setitem MIN_LATENCY_NS (PFloat v) result in
   v <- lift (float_at results 3) ;;
   let result := setitem MAX_LATENCY_NS (PFloat v) result in
   v <- lift (float_at results 4) ;;
   let result := setitem AVG_LATENCY_NS (PFloat v) result in
   ret result)%io.

End Dummy.

(** ** Concrete configurations

    A merge in which the top-level keys of the override replace those of the
    defaults, and a default configuration with 64-byte frames, to run the
    methods on. *)
Fixpoint put (k : string) (v : pyval) (d : dict) : dict :=
  match d with
  | [] => [(k, v)]
  | (k', v') :: r =>
      if String.eqb k k' then (k, v) :: r else (k', v') :: put k v r
  end.

Definition override_spec (orig new : dict) : result dict :=
  Ok (fold_left (fun acc kv => put (fst kv) (snd kv) acc) new orig).

Definition defaults64 : dict :=
  [("l2", PDict [("framesize", PInt 64); ("srcmac", PStr "00:00:00:00:00:00")]);
   ("l3", PDict [("proto", PStr "tcp")])].

(** A machine with room for strings of up to 2^30 characters. *)
Definition allocates_1G (key : ResultsConstants) (k : Z) : bool :=
  k <=? 2 ^ 30.

(** The override of the module's own [__main__] block. *)
Definition TRAFFIC : dict :=
  [("l3", PDict [("proto", PStr "tcp"); ("srcip", PStr "1.1.1.1");
                 ("dstip", PStr "90.90.90.90")])].


(** ** Writing an integer in base ten *)

Module Show.

(** The decimal digits of [d] as characters. *)
Fixpoint chars (d : Decimal.uint) : list ascii :=
  match d with
  | Decimal.Nil => []
  | Decimal.D0 d => "0"%char :: chars d
  | Decimal.D1 d => "1"%char :: chars d
  | Decimal.D2 d => "2"%char :: chars d
  | Decimal.D3 d => "3"%char :: chars d
  | Decimal.D4 d => "4"%char :: chars d
  | Decimal.D5 d => "5"%char :: chars d
  | Decimal.D6 d => "6"%char :: chars d
  | Decimal.D7 d => "7"%char :: chars d
  | Decimal.D8 d => "8"%char :: chars d
  | Decimal.D9 d => "9"%char :: chars d
  end.

(** The text of [n] in base ten, the way ['%d' % n] writes it; what an
    operator types to enter [n]. *)
Definition show (n : Z) : string :=
  string_of_list_ascii
    match Z.to_int n with
    | Decimal.Pos d => chars d
    | Decimal.Neg d => "-"%char :: chars d
    end.

(** The number a digit sequence stands for, read left to right. *)
Fixpoint value (acc : Z) (d : Decimal.uint) : Z :=
  match d with
  | Decimal.Nil => acc
  | Decimal.D0 d => value (10 * acc + 0) d
  | Decimal.D1 d => value (10 * acc + 1) d
  | Decimal.D2 d => value (10 * acc + 2) d
  | Decimal.D3 d => value (10 * acc + 3) d
  | Decimal.D4 d => value (10 * acc + 4) d
  | Decimal.D5 d => value (10 * acc + 5) d
  | Decimal.D6 d => value (10 * acc + 6) d
  | Decimal.D7 d => value (10 * acc + 7) d
  | Decimal.D8 d => value (10 * acc + 8) d
  | Decimal.D9 d => value (10 * acc + 9) d
  end.

End Show.

(** ** Vocabulary of the statements *)

(** A confirmation answer that is neither a yes nor a no. *)
Definition unclear (answer : string) : Prop :=
  accepts (lower answer) = false /\ rejects (lower answer) = false.

(** [answered ins n rest]: somewhere in [ins] the operator typed a line that
    reads as [n], then only unclear answers, then an accepting one, and
    [rest] is what follows it. *)
Definition answered (ins : list string) (n : Z) (rest : list string) : Prop :=
  exists pre line mid answer,
    ins = pre ++ line :: mid ++ answer :: rest /\
    py_int line = Some n /\
    Forall unclear mid /\
    accepts (lower answer) = true.

(** The lines of an operator who types each value and its confirmation
    once: [answers] pairs the line of a value with the answer to the
    confirmation. *)
Definition typed (answers : list (string * string)) : list string :=
  flat_map (fun p => [fst p; snd p]) answers.

(** The pair [p] enters [n] at the first attempt. *)
Definition first_try (p : string * string) (n : Z) : Prop :=
  py_int (fst p) = Some n /\ accepts (lower (snd p)) = true.

(** The prompts of a run in which every value is confirmed at once. *)
Definition dialogue (stats : list string) (values : list Z) : list event :=
  flat_map (fun sv => [AskStat (fst sv); AskCorrect (snd sv)])
           (combine stats values).

(** How many times the request to send traffic was printed. *)
Fixpoint announcements (tr : list event) : nat :=
  match tr with
  | [] => O
  | Announce _ _ _ :: r => S (announcements r)
  | _ :: r => announcements r
  end.

(** The statistics asked for, in the order of the integer prompts. *)
Fixpoint int_prompts (tr : list event) : list string :=
  match tr with
  | [] => []
  | AskStat stat :: r => stat :: int_prompts r
  | _ :: r => int_prompts r
  end.

(** The value [v] is what [int] reads of a line the operator typed. *)
Definition entered (ins : list string) (v : Z) : Prop :=
  exists line, In line ins /\ py_int line = Some v.

(** The statistics the methods ask for. *)
Definition burst_stats : list string :=
  ["frames rx"; "payload errors"; "sequence errors"].
Definition throughput_stats : list string :=
  ["frames tx"; "frames rx"; "min latency"; "max latency"; "avg latency"].

(** The double nearest to the integer [n], and whether [n] is within the
    range of doubles. *)
Definition double (n : Z) : spec_float := binary_normalize prec emax n 0 false.

Definition fitsb (n : Z) : bool :=
  match float_of_int n with Ok _ => true | Err _ => false end.

Definition fdiv : spec_float -> spec_float -> spec_float := SFdiv prec emax.
Definition fmul : spec_float -> spec_float -> spec_float := SFmul prec emax.

(** The record the specification describes for a duration [t], a frame
    size [s] and the answers [tx], [rx], [mn], [mx], [av]:
    tx_fps = tx / t, rx_fps = rx / t, tx_mbps = tx * s / t,
    rx_mbps = rx * s / t, both percentages 0.0 and the latencies as floats. *)
Definition derived (t s tx rx mn mx av : Z) : record :=
  [(THROUGHPUT_TX_FPS, PFloat (fdiv (double tx) (double t)));
   (THROUGHPUT_RX_FPS, PFloat (fdiv (double rx) (double t)));
   (THROUGHPUT_TX_MBPS, PFloat (fdiv (fmul (double tx) (double s)) (double t)));
   (THROUGHPUT_RX_MBPS, PFloat (fdiv (fmul (double rx) (double s)) (double t)));
   (THROUGHPUT_TX_PERCENT, PFloat (S754_zero false));
   (THROUGHPUT_RX_PERCENT, PFloat (S754_zero false));
   (MIN_LATENCY_NS, PFloat (double mn));
   (MAX_LATENCY_NS, PFloat (double mx));
   (AVG_LATENCY_NS, PFloat (double av))].

(** The dictionary the specification describes for a burst of [n] packets
    of [s] bytes and the answers [r], [p], [q]. *)
Definition burst_constants (n s r p q : Z) : record :=
  [(TX_FRAMES, PInt n); (RX_FRAMES, PInt r);
   (TX_BYTES, PInt (s * n)); (RX_BYTES, PInt (s * r));
   (PAYLOAD_ERR, PInt p); (SEQ_ERR, PInt q)].

(** A run does not fail: it returns, or waits for the operator, or raises
    what the merge of the configuration [eff] raised. *)
Definition no_failure {A} (eff : result dict) (r : run A) : Prop :=
  match snd r with
  | Done _ _ | Blocked => True
  | Raised e _ => eff = Err e
  end.

(** The run [r] with the wording of its request to send traffic replaced:
    the label and the stream description of a leading [Announce] become
    [traffic_type] and [traffic_conf], everything else is kept. *)
Definition reword {A} (traffic_type : string) (traffic_conf : stream_conf)
  (r : run A) : run A :=
  match fst r with
  | Announce _ _ flow :: tr =>
      (Announce traffic_type traffic_conf flow :: tr, snd r)
  | _ => r
  end.

(** The two byte counts of the burst dictionary, [TX_BYTES] and
    [RX_BYTES], for [numpkts] packets sent and [r] received. *)
Definition burst_bytes (alloc : ResultsConstants -> Z -> bool)
  (traffic_ : dict)
  (numpkts r : Z) : result (pyval * pyval) :=
  (fs <-- framesize_of traffic_ ;;
   tb <-- mul_int (alloc TX_BYTES) fs numpkts ;;
   rb <-- mul_int (alloc RX_BYTES) fs r ;;
   Ok (tb, rb))%res.

(** What the product [float * framesize] of the throughput methods
    accepts: an integer within the range of doubles, a boolean or a float. *)
Definition float_operand (fs : pyval) : Prop :=
  match fs with
  | PInt s => fitsb s = true
  | PBool _ | PFloat _ => True
  | PNone | PStr _ | PDict _ => False
  end.

(** The string [s] can be repeated [n] times: [n] is an index-sized integer
    and, when it is more than one, the result is no longer than a string can
    be and, unless empty, fits in memory. *)
Definition repeats (alloc : Z -> bool) (s : string) (n : Z) : Prop :=
  - 2 ^ 63 <= n <= max_size /\
  (n <= 1 \/
   (text_length s <= max_size / n /\
    (text_length s = 0 \/ alloc (text_length s * n) = true))).

(** What the product [framesize * n] of the burst test accepts: an integer
    or a boolean; a float when [n] is within the range of doubles; a string
    that can be repeated [n] times. *)
Definition int_operand (alloc : Z -> bool) (fs : pyval) (n : Z) : Prop :=
  match fs with
  | PInt _ | PBool _ => True
  | PFloat _ => fitsb n = true
  | PStr s => repeats alloc s n
  | PNone | PDict _ => False
  end.

(** The burst test of [numpkts] packets gets through its arithmetic when the
    configuration has a frame size that can be multiplied by [numpkts] and
    by the frames received, [r]. *)
Definition burst_safe (alloc : ResultsConstants -> Z -> bool)
  (traffic_ : dict) (numpkts r : Z) : Prop :=
  exists fs, framesize_of traffic_ = Ok fs /\
             int_operand (alloc TX_BYTES) fs numpkts /\
             int_operand (alloc RX_BYTES) fs r.

(** A throughput method of duration [t] gets through its arithmetic on the
    answers [vs] when [t] is not zero, [t] and the answers are within the
    range of doubles, and the configuration has a frame size a float can be
    multiplied by. *)
Definition throughput_safe (traffic_ : dict) (t : Z) (vs : list Z) : Prop :=
  t <> 0 /\ fitsb t = true /\ forallb fitsb vs = true /\
  exists fs, framesize_of traffic_ = Ok fs /\ float_operand fs.

(** A double that is a whole number: a zero, or a finite value whose
    mantissa [m] and exponent [e] give the integer [m * 2 ^ e]. *)
Definition integral (f : spec_float) : Prop :=
  match f with
  | S754_zero _ => True
  | S754_finite _ m e => 0 <= e \/ (2 ^ (- e) | Z.pos m)
  | S754_infinity _ | S754_nan => False
  end.

(** The field [k] of [rec] is the double of an integer the operator
    entered, [float] having converted it without overflow; that double is a
    whole number. *)
Definition latency_entered (ins : list string) (rec : record)
  (k : ResultsConstants) : Prop :=
  exists n,
    entered ins n /\
    float_of_int n = Ok (double n) /\
    field k rec = Some (PFloat (double n)) /\
    integral (double n).

Definition latencies_entered (ins : list string) (rec : record) : Prop :=
  latency_entered ins rec MIN_LATENCY_NS /\
  latency_entered ins rec MAX_LATENCY_NS /\
  latency_entered ins rec AVG_LATENCY_NS.

(** An operator who answers the five statistics of the throughput scenario,
    and one who answers the three of the burst scenario. *)
Definition scenario_throughput : list string :=
  ["2000"; ""; "1900"; ""; "10"; ""; "50"; ""; "25"; ""].
Definition scenario_burst : list string := ["90"; ""; "2"; ""; "1"; ""].

(** How many times [input] was called along a trace. *)
Fixpoint inputs (tr : list event) : nat :=
  match tr with
  | [] => O
  | AskStat _ :: r | AskCorrect _ :: r => S (inputs r)
  | _ :: r => inputs r
  end.

(** A console computation that looks at no line beyond those it takes:
    whenever it returns, it split the lines into those it used and the rest,
    and any other rest is left untouched in the same way. *)
Definition reads_only_consumed {A} (m : io A) : Prop :=
  forall ins tr a rest,
    m ins = (tr, Done a rest) ->
    exists used,
      ins = used ++ rest /\
      forall rest', m (used ++ rest') = (tr, Done a rest').

(** Each line typed answers one [input]: a finished run has called [input]
    once per line it took, a waiting run once more than there were lines. *)
Definition one_line_per_input {A} (ins : list string) (r : run A) : Prop :=
  match snd r with
  | Done _ rest => List.length ins = (inputs (fst r) + List.length rest)%nat
  | Blocked => inputs (fst r) = S (List.length ins)
  | Raised _ _ => False
  end.

(** The names [l] are those of [stats], in order, each one at least once:
    [times] tells how many more times each was repeated. *)
Definition repeated_in_order (stats l : list string) : Prop :=
  exists times : list nat,
    List.length times = List.length stats /\
    l = flat_map (fun st => repeat (fst st) (S (snd st))) (combine stats times).

(** The nine keys of a throughput record, in the order of insertion. *)
Definition throughput_keys : list ResultsConstants :=
  [THROUGHPUT_TX_FPS; THROUGHPUT_RX_FPS; THROUGHPUT_TX_MBPS;
   THROUGHPUT_RX_MBPS; THROUGHPUT_TX_PERCENT; THROUGHPUT_RX_PERCENT;
   MIN_LATENCY_NS; MAX_LATENCY_NS; AVG_LATENCY_NS].

(** A frame size that is no number. *)
Definition not_a_number (v : pyval) : Prop :=
  match v with
  | PNone | PStr _ | PDict _ => True
  | PBool _ | PInt _ | PFloat _ => False
  end.

(** A merge that refuses every override. *)
Definition refuse_spec (orig new : dict) : result dict :=
  Err (MergeError "refused").

(** The blanks of ASCII (tab, line feed, vertical tab, form feed, carriage
    return, space), a text with such blanks typed before and after it, and
    a text that holds one somewhere. *)
Definition blank (c : ascii) : bool :=
  is_space (code c) && (code c <? 128).

Definition blanks (l : list ascii) : Prop :=
  Forall (fun c => blank c = true) l.

Definition padded (pre post : list ascii) (s : string) : string :=
  string_of_list_ascii (pre ++ list_ascii_of_string s ++ post).

Definition has_blank (s : string) : Prop :=
  exists c, In c (list_ascii_of_string s) /\ blank c = true.

(** The characters [show] writes, digits and the minus sign, are ASCII
    characters that are no blanks. *)
Definition plain (c : ascii) : Prop :=
  code c < 128 /\ is_space (code c) = false.

(** The run of a method that gets through the dialogue [g] of the collector
    and then raises [e]: the trace is that of the dialogue, and the
    exception comes only once the operator has answered everything. *)
Definition raises_after {A} (g : run (list Z)) (e : exn) : run A :=
  (fst g,
   match snd g with
   | Done _ rest => Raised e rest
   | Blocked => Blocked
   | Raised e' rest => Raised e' rest
   end).

(** What a console computation has printed while waiting does not depend on
    the lines still to come: if it is waiting after the lines [ins], then
    with more lines behind them its trace begins with the same events. *)
Definition prefix_stable {A} (m : io A) : Prop :=
  forall ins tr,
    m ins = (tr, Blocked) ->
    forall more, exists tr', fst (m (ins ++ more)) = tr ++ tr'.

(** * Properties *)

Example py_int_examples :
  py_int "2000" = Some 2000 /\ py_int " -17 " = Some (-17) /\
  py_int "+1_000" = Some 1000 /\ py_int "10.5" = None /\
  py_int "" = None /\ py_int "1__0" = None /\ py_int "- 5" = None.
Proof. repeat split; reflexivity. Qed.

(** Lines with characters beyond ASCII, each given by the bytes that encode
    it. *)
Example py_int_beyond_ascii :
  let line := fun bytes =>
    string_of_list_ascii (map (fun b => ascii_of_nat b) bytes) in
  (* a file separator before the digit: refused *)
  py_int (line [28; 53]%nat) = None /\
  py_int (line [53; 31]%nat) = None /\
  (* a no-break space, a next-line control, a figure space and an
     ideographic space around the digit: skipped *)
  py_int (line [194; 160; 53]%nat) = Some 5 /\
  py_int (line [194; 133; 53]%nat) = Some 5 /\
  py_int (line [226; 128; 135; 53; 227; 128; 128]%nat) = Some 5 /\
  (* Arabic-Indic digits *)
  py_int (line [217; 165]%nat) = Some 5 /\
  py_int (line [45; 217; 163; 217; 162]%nat) = Some (-32) /\
  (* an underscore between digits, a blank between digits, a fraction *)
  py_int " 1_000 " = Some 1000 /\
  py_int "5 5" = None /\
  py_int "10.5" = None /\
  (* bytes that encode no text *)
  py_int (line [255; 53]%nat) = None.
Proof. vm_compute. repeat split. Qed.

(** ** Text *)

Lemma lower_char_idem (c : ascii) : lower_char (lower_char c) = lower_char c.
Proof.
  destruct c as [[] [] [] [] [] [] [] []]; reflexivity.
Qed.

Lemma lower_idem (s : string) : lower (lower s) = lower s.
Proof.
  induction s as [|c s IH]; simpl; [reflexivity|].
  now rewrite lower_char_idem, IH.
Qed.

Lemma lower_empty (s : string) : lower s = "" -> s = "".
Proof. destruct s; simpl; [reflexivity | discriminate]. Qed.

(** ** Every integer has a text that [int] reads back *)

Import Show.

Lemma utf8_decode_ascii (l : list ascii) :
  Forall (fun c => code c < 128) l -> utf8_decode l = Some (map code l).
Proof.
  induction 1 as [|c l Hc _ IH]; [reflexivity|].
  cbn [utf8_decode map]. apply Z.ltb_lt in Hc. now rewrite Hc, IH.
Qed.

Lemma digits_chars (d : Decimal.uint) :
  forall acc, digits acc true (map code (chars d)) = Some (value acc d).
Proof.
  induction d; intros acc; simpl; try reflexivity; apply IHd.
Qed.

Lemma digits_chars_start (d : Decimal.uint) :
  d <> Decimal.Nil ->
  digits 0 false (map code (chars d)) = Some (value 0 d).
Proof.
  destruct d; intros H; [congruence| ..]; simpl; apply digits_chars.
Qed.

Lemma value_pos (d : Decimal.uint) :
  forall p, value (Z.pos p) d = Z.pos (Pos.of_uint_acc d p).
Proof.
  induction d; intros p; cbn [value Pos.of_uint_acc]; [reflexivity| ..];
    rewrite <- IHd; f_equal; lia.
Qed.

Lemma value_of_uint (d : Decimal.uint) :
  value 0 d = Z.of_N (Pos.of_uint d).
Proof.
  induction d; cbn [value Pos.of_uint]; try reflexivity; try assumption;
    cbn [Z.of_N]; rewrite <- value_pos; reflexivity.
Qed.

Lemma value_of_int (n : Z) :
  match Z.to_int n with
  | Decimal.Pos d => value 0 d = n /\ d <> Decimal.Nil
  | Decimal.Neg d => - value 0 d = n /\ d <> Decimal.Nil
  end.
Proof.
  pose proof (DecimalZ.of_to n) as H.
  destruct n as [|p|p]; cbn [Z.to_int] in *.
  - split; [reflexivity | discriminate].
  - split; [|apply DecimalPos.Unsigned.to_uint_nonnil].
    rewrite value_of_uint. exact H.
  - split; [|apply DecimalPos.Unsigned.to_uint_nonnil].
    rewrite value_of_uint. exact H.
Qed.

Lemma chars_plain (d : Decimal.uint) : Forall plain (chars d).
Proof. induction d; simpl; constructor; auto; split; reflexivity. Qed.

Lemma plain_ascii (l : list ascii) :
  Forall plain l -> Forall (fun c => code c < 128) l.
Proof. apply Forall_impl. now intros c [H _]. Qed.

Lemma plain_no_space (l : list ascii) :
  Forall plain l -> Forall (fun c => is_space c = false) (map code l).
Proof.
  induction 1 as [|c l [_ Hc] _ IH]; simpl; constructor; assumption.
Qed.

Lemma lstrip_id (l : list Z) :
  Forall (fun c => is_space c = false) l -> lstrip l = l.
Proof. destruct 1 as [|c l H _]; simpl; [reflexivity | now rewrite H]. Qed.

Lemma strip_id (l : list Z) :
  Forall (fun c => is_space c = false) l -> strip l = l.
Proof.
  intros H. unfold strip. rewrite (lstrip_id l H), lstrip_id.
  - apply rev_involutive.
  - apply Forall_rev, H.
Qed.

(** What [show] writes, [int] reads back. *)
Lemma py_int_show (n : Z) : py_int (show n) = Some n.
Proof.
  unfold py_int, show. rewrite list_ascii_of_string_of_list_ascii.
  pose proof (value_of_int n) as H.
  destruct (Z.to_int n) as [d|d]; destruct H as [Hv Hd].
  - rewrite (utf8_decode_ascii _ (plain_ascii _ (chars_plain d))).
    rewrite strip_id by apply plain_no_space, chars_plain.
    rewrite <- Hv, <- (digits_chars_start d Hd).
    destruct d; try congruence; reflexivity.
  - assert (Hp : Forall plain ("-"%char :: chars d))
      by (constructor; [split; reflexivity | apply chars_plain]).
    rewrite (utf8_decode_ascii _ (plain_ascii _ Hp)).
    rewrite strip_id by apply plain_no_space, Hp.
    cbn [map]. change (code "-") with 45.
    rewrite (digits_chars_start d Hd). simpl. now rewrite Hv.
Qed.

(** ** Traces *)

Lemma emit_nil {A} (r : run A) : emit [] r = r.
Proof. destruct r; reflexivity. Qed.

Lemma emit_emit {A} (t1 t2 : list event) (r : run A) :
  emit t1 (emit t2 r) = emit (t1 ++ t2) r.
Proof. unfold emit; simpl. now rewrite app_assoc. Qed.

Lemma snd_emit {A} (t : list event) (r : run A) : snd (emit t r) = snd r.
Proof. reflexivity. Qed.

Lemma fst_emit {A} (t : list event) (r : run A) :
  fst (emit t r) = t ++ fst r.
Proof. reflexivity. Qed.

(** ** The validator, one loop iteration at a time *)

Section Validator.

Variable stat_type : string.

Lemma stat_blocked : _get_user_traffic_stat stat_type [] = ([AskStat
  stat_type], Blocked).
Proof. reflexivity. Qed.

Lemma stat_invalid (line : string) (rest : list string) :
  py_int line = None ->
  _get_user_traffic_stat stat_type (line :: rest)
  = emit [AskStat stat_type; SayInvalid]
         (_get_user_traffic_stat stat_type rest).
Proof. intros H. simpl. now rewrite H. Qed.

Lemma stat_valid (line : string) (n : Z) (rest : list string) :
  py_int line = Some n ->
  _get_user_traffic_stat stat_type (line :: rest)
  = emit [AskStat stat_type] (confirm_loop stat_type n rest).
Proof.
  intros H. simpl. rewrite H. f_equal.
  induction rest as [|answer rest IH]; simpl; [reflexivity|].
  destruct (accepts (lower answer)); [reflexivity|].
  destruct (rejects (lower answer)); [reflexivity|].
  now rewrite IH.
Qed.

Lemma confirm_blocked (n : Z) :
  confirm_loop stat_type n [] = ([AskCorrect n], Blocked).
Proof. reflexivity. Qed.

Lemma confirm_accept (n : Z) (answer : string) (rest : list string) :
  accepts (lower answer) = true ->
  confirm_loop stat_type n (answer :: rest) = ([AskCorrect n], Done n rest).
Proof. intros H. simpl. now rewrite H. Qed.

Lemma confirm_reject (n : Z) (answer : string) (rest : list string) :
  accepts (lower answer) = false -> rejects (lower answer) = true ->
  confirm_loop stat_type n (answer :: rest)
  = emit [AskCorrect n] (_get_user_traffic_stat stat_type rest).
Proof. intros H1 H2. simpl. now rewrite H1, H2. Qed.

Lemma confirm_other (n : Z) (answer : string) (rest : list string) :
  accepts (lower answer) = false -> rejects (lower answer) = false ->
  confirm_loop stat_type n (answer :: rest)
  = emit [AskCorrect n; SayYesNo] (confirm_loop stat_type n rest).
Proof. intros H1 H2. simpl. now rewrite H1, H2. Qed.

(** The two tests of the inner loop, read as membership. *)
Lemma accepts_iff (choice : string) :
  accepts choice = true <-> In choice [""; "yes"; "y"; "ye"].
Proof.
  unfold accepts, member, true_vals; simpl.
  rewrite orb_false_r, !orb_true_iff, !String.eqb_eq.
  destruct choice as [|c r]; simpl; split; intros H;
    repeat match goal with
           | H : _ \/ _ |- _ => destruct H
           | H : False |- _ => destruct H
           end;
    try discriminate; subst; auto 6.
Qed.

Lemma rejects_iff (choice : string) :
  rejects choice = true <-> In choice ["no"; "n"].
Proof.
  unfold rejects, member, false_vals; simpl.
  rewrite orb_false_r, andb_true_iff, !orb_true_iff, !String.eqb_eq.
  destruct choice as [|c r]; simpl; split; intros H;
    repeat match goal with
           | H : _ /\ _ |- _ => destruct H
           | H : _ \/ _ |- _ => destruct H
           | H : False |- _ => destruct H
           end;
    try discriminate; subst; auto 6.
Qed.

Lemma rejects_not_accepts (choice : string) :
  rejects choice = true -> accepts choice = false.
Proof.
  intros H. apply rejects_iff in H.
  destruct (accepts choice) eqn:E; [|reflexivity].
  apply accepts_iff in E. simpl in H, E.
  destruct H as [<-|[<-|[]]]; intuition discriminate.
Qed.

End Validator.

(** ** What a finished prompt was answered with *)

Lemma emit_inv {A} (t tr : list event) (r : run A) (s : status A) :
  emit t r = (tr, s) -> exists tr', r = (tr', s) /\ tr = t ++ tr'.
Proof.
  destruct r as [tr' s']; unfold emit; simpl.
  intros H; inversion H; subst. now exists tr'.
Qed.

Lemma answered_cons (a : string) (ins : list string) (n : Z)
  (rest : list string) :
  answered ins n rest -> answered (a :: ins) n rest.
Proof.
  intros (pre & line & mid & answer & -> & H1 & H2 & H3).
  now exists (a :: pre), line, mid, answer.
Qed.

Lemma stat_done_answered (stat_type : string) (k : nat) :
  forall ins, (List.length ins <= k)%nat ->
    (forall tr m rest,
        _get_user_traffic_stat stat_type ins = (tr, Done m rest) ->
        answered ins m rest) /\
    (forall n tr m rest,
        confirm_loop stat_type n ins = (tr, Done m rest) ->
        (m = n /\ exists mid answer,
            ins = mid ++ answer :: rest /\ Forall unclear mid /\
            accepts (lower answer) = true)
        \/ answered ins m rest).
Proof.
  induction k as [|k IH]; intros ins Hlen.
  - destruct ins; [|simpl in Hlen; lia].
    split; intros; discriminate.
  - destruct ins as [|a ins]; [split; intros; discriminate|].
    simpl in Hlen. assert (Hk : (List.length ins <= k)%nat) by lia.
    destruct (IH ins Hk) as [IHo IHi]. split.
    + intros tr m rest H.
      destruct (py_int a) as [n|] eqn:Hp.
      * rewrite (stat_valid _ _ _ _ Hp) in H.
        apply emit_inv in H as (tr' & H & _).
        destruct (IHi _ _ _ _ H) as [(-> & mid & answer & -> & Hm & Ha)|Hans].
        -- now exists [], a, mid, answer.
        -- now apply answered_cons.
      * rewrite (stat_invalid _ _ _ Hp) in H.
        apply emit_inv in H as (tr' & H & _).
        apply answered_cons. eauto.
    + intros n tr m rest H.
      destruct (accepts (lower a)) eqn:Ha.
      * rewrite (confirm_accept _ _ _ _ Ha) in H. inversion H; subst.
        left. split; [reflexivity|]. now exists [], a.
      * destruct (rejects (lower a)) eqn:Hr.
        -- rewrite (confirm_reject _ _ _ _ Ha Hr) in H.
           apply emit_inv in H as (tr' & H & _).
           right. apply answered_cons. eauto.
        -- rewrite (confirm_other _ _ _ _ Ha Hr) in H.
           apply emit_inv in H as (tr' & H & _).
           destruct (IHi _ _ _ _ H)
             as [(-> & mid & answer & -> & Hm & Hacc)|Hans].
           ++ left. split; [reflexivity|].
              exists (a :: mid), answer. repeat split; auto.
              constructor; [now split | assumption].
           ++ right. now apply answered_cons.
Qed.

Lemma stat_answered (stat_type : string) (ins : list string)
  (tr : list event) (m : Z) (rest : list string) :
  _get_user_traffic_stat stat_type ins = (tr, Done m rest) ->
  answered ins m rest.
Proof.
  intros H.
  now apply (proj1 (stat_done_answered stat_type (List.length ins) ins (le_n
    _)) tr).
Qed.

(** ** The validator: claims *)

(** C5.  Once a line has been read as the integer [n]: an empty answer or
    'yes', 'y', 'ye' returns [n]; 'no' or 'n' drops [n] and the integer is
    asked for again; any other answer prints the reminder and asks the
    confirmation again, for the same [n], the integer prompt not being
    repeated.  And whatever the operator types, a value the validator returns
    is the one it read last: the accepting answer follows the line read as
    that value with only unclear answers in between. *)
Theorem validator_confirmation (stat_type line answer : string) (n : Z)
  (rest : list string) :
  py_int line = Some n ->
  (In (lower answer) [""; "yes"; "y"; "ye"] ->
   _get_user_traffic_stat stat_type (line :: answer :: rest)
   = ([AskStat stat_type; AskCorrect n], Done n rest)) /\
  (In (lower answer) ["no"; "n"] ->
   _get_user_traffic_stat stat_type (line :: answer :: rest)
   = emit [AskStat stat_type; AskCorrect n]
          (_get_user_traffic_stat stat_type rest)) /\
  (~ In (lower answer) [""; "yes"; "y"; "ye"; "no"; "n"] ->
   _get_user_traffic_stat stat_type (line :: answer :: rest)
   = emit [AskStat stat_type; AskCorrect n; SayYesNo]
          (confirm_loop stat_type n rest)) /\
  (forall ins tr m rest',
      _get_user_traffic_stat stat_type ins = (tr, Done m rest') ->
      answered ins m rest').
Proof.
  intros Hp. rewrite (stat_valid _ _ _ _ Hp).
  repeat split.
  - intros H. apply accepts_iff in H.
    now rewrite (confirm_accept _ _ _ _ H).
  - intros H. apply rejects_iff in H.
    rewrite (confirm_reject _ _ _ _ (rejects_not_accepts _ H) H).
    now rewrite emit_emit.
  - intros H.
    assert (Ha : accepts (lower answer) = false).
    { destruct (accepts (lower answer)) eqn:E; [|reflexivity].
      apply accepts_iff in E. exfalso. apply H. simpl in *. intuition. }
    assert (Hr : rejects (lower answer) = false).
    { destruct (rejects (lower answer)) eqn:E; [|reflexivity].
      apply rejects_iff in E. exfalso. apply H. simpl in *. intuition. }
    rewrite (confirm_other _ _ _ _ Ha Hr). now rewrite emit_emit.
  - intros ins tr m rest'. apply stat_answered.
Qed.

Lemma validator_confirmation_witness :
  py_int "1900" = Some 1900 /\
  _get_user_traffic_stat "frames rx" ["1900"; "ye"; "7"]
  = ([AskStat "frames rx"; AskCorrect 1900], Done 1900 ["7"]) /\
  _get_user_traffic_stat "frames rx" ["1900"; "no"; "1950"; "maybe"; ""]
  = ([AskStat "frames rx"; AskCorrect 1900; AskStat "frames rx";
      AskCorrect 1950; SayYesNo; AskCorrect 1950], Done 1950 []).
Proof.
  split; [reflexivity|]. split.
  - apply (validator_confirmation "frames rx" "1900" "ye" 1900 ["7"]);
      [reflexivity | simpl; auto].
  - rewrite (proj1 (proj2 (validator_confirmation "frames rx" "1900" "no" 1900
                             ["1950"; "maybe"; ""] eq_refl)))
      by (simpl; auto).
    rewrite (proj1 (proj2 (proj2 (validator_confirmation "frames rx" "1950"
                             "maybe" 1950 [""] eq_refl)))).
    + reflexivity.
    + simpl. intros H.
      repeat (destruct H as [H|H]; [discriminate|]). exact H.
Defined.

Lemma stat_starts (stat_type : string) (ins : list string) :
  exists tr, fst (_get_user_traffic_stat stat_type ins) = AskStat stat_type ::
    tr.
Proof.
  destruct ins as [|line rest]; [now exists []|].
  destruct (py_int line) as [n|] eqn:Hp.
  - rewrite (stat_valid _ _ _ _ Hp). simpl. eauto.
  - rewrite (stat_invalid _ _ _ Hp). simpl. eauto.
Qed.

(** C8.  A line that [int] does not read makes the validator print the
    complaint and ask for the integer again: the run goes on as a fresh run
    on the lines that follow, whose first event is the integer prompt, and no
    confirmation is asked for that line.  A line that [int] reads as [n]
    leads to the confirmation of [n] with no test on [n]; every integer
    [n], of any size and sign, has a text that is read as [n] and returned
    once confirmed. *)
Theorem validator_integer_input (stat_type line : string)
  (rest : list string) :
  (py_int line = None ->
   _get_user_traffic_stat stat_type (line :: rest)
   = emit [AskStat stat_type; SayInvalid]
          (_get_user_traffic_stat stat_type rest) /\
   exists tr,
     fst (_get_user_traffic_stat stat_type (line :: rest))
     = AskStat stat_type :: SayInvalid :: AskStat stat_type :: tr) /\
  (forall n, py_int line = Some n ->
     _get_user_traffic_stat stat_type (line :: rest)
     = emit [AskStat stat_type] (confirm_loop stat_type n rest)) /\
  (forall n : Z,
     py_int (show n) = Some n /\
     _get_user_traffic_stat stat_type (show n :: "" :: rest)
     = ([AskStat stat_type; AskCorrect n], Done n rest)).
Proof.
  repeat split.
  - now apply stat_invalid.
  - rewrite (stat_invalid _ _ _ H).
    destruct (stat_starts stat_type rest) as [tr Htr].
    exists tr. rewrite fst_emit, Htr. reflexivity.
  - intros n. apply stat_valid.
  - apply py_int_show.
  - rewrite (stat_valid _ _ _ _ (py_int_show n)). reflexivity.
Qed.

Lemma validator_integer_input_witness :
  py_int "10.5" = None /\
  _get_user_traffic_stat "min latency" ["10.5"; "10"; "y"]
  = ([AskStat "min latency"; SayInvalid; AskStat "min latency";
      AskCorrect 10], Done 10 []) /\
  py_int "-123456789012345678901234567890"
  = Some (-123456789012345678901234567890) /\
  _get_user_traffic_stat "min latency"
    ["-123456789012345678901234567890"; ""]
  = ([AskStat "min latency"; AskCorrect (-123456789012345678901234567890)],
     Done (-123456789012345678901234567890) []).
Proof.
  split; [reflexivity|]. split; [|split; [reflexivity|]].
  - rewrite (proj1 (proj1 (validator_integer_input "min latency" "10.5"
                             ["10"; "y"]) eq_refl)).
    reflexivity.
  - rewrite (proj1 (proj2 (validator_integer_input "min latency"
                             "-123456789012345678901234567890" [""]))
               (-123456789012345678901234567890) eq_refl).
    reflexivity.
Defined.

(** C9.  The confirmation is lowercased before it is compared: an answer
    and its lowercase form lead to the same run, so 'YES', 'Y', 'Ye' accept
    the value and 'NO', 'N' reject it, as 'yes', 'y', 'ye' and 'no', 'n'
    do. *)
Theorem confirmation_ignores_case (stat_type line answer : string) (n : Z)
  (rest : list string) :
  py_int line = Some n ->
  _get_user_traffic_stat stat_type (line :: answer :: rest)
  = _get_user_traffic_stat stat_type (line :: lower answer :: rest) /\
  (In answer ["YES"; "Y"; "Ye"; "yes"; "y"; "ye"] ->
   _get_user_traffic_stat stat_type (line :: answer :: rest)
   = ([AskStat stat_type; AskCorrect n], Done n rest)) /\
  (In answer ["NO"; "N"; "no"; "n"] ->
   _get_user_traffic_stat stat_type (line :: answer :: rest)
   = emit [AskStat stat_type; AskCorrect n]
          (_get_user_traffic_stat stat_type rest)).
Proof.
  intros Hp. rewrite !(stat_valid _ _ _ _ Hp). repeat split.
  - simpl. now rewrite lower_idem.
  - intros H.
    rewrite confirm_accept; [reflexivity|].
    simpl in H. decompose [or] H; subst; try reflexivity. contradiction.
  - intros H.
    assert (Hr : rejects (lower answer) = true)
      by (simpl in H; decompose [or] H; subst; try reflexivity;
          contradiction).
    rewrite (confirm_reject _ _ _ _ (rejects_not_accepts _ Hr) Hr).
    now rewrite emit_emit.
Qed.

Lemma confirmation_ignores_case_witness :
  py_int "42" = Some 42 /\
  _get_user_traffic_stat "frames tx" ["42"; "YES"]
  = _get_user_traffic_stat "frames tx" ["42"; "yes"] /\
  _get_user_traffic_stat "frames tx" ["42"; "Ye"]
  = ([AskStat "frames tx"; AskCorrect 42], Done 42 []) /\
  _get_user_traffic_stat "frames tx" ["42"; "NO"]
  = ([AskStat "frames tx"; AskCorrect 42; AskStat "frames tx"], Blocked).
Proof.
  split; [reflexivity|]. split; [|split].
  - exact (proj1 (confirmation_ignores_case "frames tx" "42" "YES" 42 []
                    eq_refl)).
  - apply (proj1 (proj2 (confirmation_ignores_case "frames tx" "42" "Ye" 42 []
                           eq_refl))).
    simpl; auto.
  - rewrite (proj2 (proj2 (confirmation_ignores_case "frames tx" "42" "NO" 42
                             [] eq_refl))) by (simpl; auto).
    reflexivity.
Defined.

(** ** The collector *)

Lemma bind_done {A B} (m : io A) (k : A -> io B) (ins : list string)
  (tr : list event) (a : A) (rest : list string) :
  m ins = (tr, Done a rest) -> bind m k ins = emit tr (k a rest).
Proof. intros H. unfold bind. now rewrite H. Qed.

Lemma bind_inv {A B} (m : io A) (k : A -> io B) (ins : list string)
  (tr : list event) (b : B) (rest : list string) :
  bind m k ins = (tr, Done b rest) ->
  exists tr1 a mid tr2,
    m ins = (tr1, Done a mid) /\ k a mid = (tr2, Done b rest) /\
    tr = tr1 ++ tr2.
Proof.
  unfold bind. destruct (m ins) as [tr1 [a mid| |e mid]]; try discriminate.
  intros H. apply emit_inv in H as (tr2 & H & ->).
  now exists tr1, a, mid, tr2.
Qed.

Lemma stat_first_try (stat_type : string) (p : string * string) (n : Z)
  (rest : list string) :
  first_try p n ->
  _get_user_traffic_stat stat_type (fst p :: snd p :: rest)
  = ([AskStat stat_type; AskCorrect n], Done n rest).
Proof.
  intros [Hp Ha].
  now rewrite (stat_valid _ _ _ _ Hp), (confirm_accept _ _ _ _ Ha).
Qed.

Lemma collect_first_try (stats : list string) :
  forall (acc : list Z) (answers : list (string * string)) (values : list Z)
         (rest : list string),
    List.length answers = List.length stats ->
    Forall2 first_try answers values ->
    collect stats acc (typed answers ++ rest)
    = (dialogue stats values, Done (acc ++ values) rest).
Proof.
  induction stats as [|stat more IH]; intros acc answers values rest Hlen HF.
  - destruct answers; [|discriminate]. inversion HF; subst.
    simpl. now rewrite app_nil_r.
  - destruct HF as [|p n answers values Hp HF]; [discriminate|].
    simpl in Hlen. injection Hlen as Hlen.
    cbn [collect typed flat_map app].
    rewrite (bind_done _ _ _ _ _ _ (stat_first_try stat p n _ Hp)).
    fold (typed answers). rewrite (IH _ _ _ _ Hlen HF).
    unfold emit; simpl. now rewrite <- app_assoc.
Qed.

Lemma announcements_dialogue (stats : list string) :
  forall values, announcements (dialogue stats values) = O.
Proof.
  induction stats as [|s stats IH]; intros [|v values]; simpl; auto.
  apply IH.
Qed.

Lemma int_prompts_dialogue (stats : list string) :
  forall values, List.length values = List.length stats ->
                 int_prompts (dialogue stats values) = stats.
Proof.
  induction stats as [|s stats IH]; intros [|v values] H;
    try discriminate; [reflexivity|].
  simpl in *. f_equal. apply IH. now injection H.
Qed.

Lemma first_try_nth (answers : list (string * string)) (values : list Z) :
  Forall2 first_try answers values ->
  forall i p, nth_error answers i = Some p ->
              exists n, nth_error values i = Some n /\ first_try p n.
Proof.
  induction 1 as [|q n answers values Hq HF IH]; intros [|i] p Hi;
    simpl in *; try discriminate.
  - injection Hi as <-. eauto.
  - eauto.
Qed.

(** C7.  When the operator enters each of the [N] statistics validly and
    confirms it at the first attempt, [get_user_traffic] prints the request
    once, asks for the [N] statistics in the order of the list, one integer
    prompt each, and returns the [N] values entered, the i-th value being the
    one typed for the i-th statistic. *)
Theorem collector_in_order (traffic_type : string)
  (traffic_conf : stream_conf) (flow_conf : dict) (traffic_stats : list string)
  (answers : list (string * string)) (values : list Z) (rest : list string) :
  List.length answers = List.length traffic_stats ->
  Forall2 first_try answers values ->
  let r := get_user_traffic traffic_type traffic_conf flow_conf traffic_stats
             (typed answers ++ rest) in
  r = (Announce traffic_type traffic_conf flow_conf
         :: dialogue traffic_stats values,
       Done values rest) /\
  announcements (fst r) = 1%nat /\
  int_prompts (fst r) = traffic_stats /\
  List.length values = List.length traffic_stats /\
  (forall i p, nth_error answers i = Some p ->
               exists n, py_int (fst p) = Some n /\
                         nth_error values i = Some n).
Proof.
  intros Hlen HF r.
  assert (Hv : List.length values = List.length traffic_stats)
    by (rewrite <- Hlen; symmetry; eapply Forall2_length; eassumption).
  assert (Hr : r = (Announce traffic_type traffic_conf flow_conf
                      :: dialogue traffic_stats values, Done values rest)).
  { subst r. unfold get_user_traffic, bind, print.
    now rewrite (collect_first_try _ [] _ _ _ Hlen HF). }
  rewrite Hr. repeat split; simpl.
  - now rewrite announcements_dialogue.
  - now apply int_prompts_dialogue.
  - exact Hv.
  - intros i p Hi.
    destruct (first_try_nth _ _ HF i p Hi) as (n & Hn & Hp & _). eauto.
Qed.

Lemma collector_in_order_witness :
  get_user_traffic "burst" (BurstConf 100 20) []
    ["frames rx"; "payload errors"; "sequence errors"]
    ["90"; ""; "2"; "Y"; "1"; "yes"; "left over"]
  = ([Announce "burst" (BurstConf 100 20) [];
      AskStat "frames rx"; AskCorrect 90;
      AskStat "payload errors"; AskCorrect 2;
      AskStat "sequence errors"; AskCorrect 1],
     Done [90; 2; 1] ["left over"]).
Proof.
  apply (collector_in_order "burst" (BurstConf 100 20) []
           ["frames rx"; "payload errors"; "sequence errors"]
           [("90", ""); ("2", "Y"); ("1", "yes")] [90; 2; 1] ["left over"]).
  - reflexivity.
  - repeat constructor.
Defined.

(** ** What the collector can return *)

Lemma answered_entered (ins : list string) (n : Z) (rest : list string) :
  answered ins n rest ->
  entered ins n /\ (forall v, entered rest v -> entered ins v).
Proof.
  intros (pre & line & mid & answer & -> & Hp & _ & _). split.
  - exists line. split; [|exact Hp]. apply in_or_app. right. now left.
  - intros v (l & Hl & Hv). exists l. split; [|exact Hv].
    apply in_or_app. right. right. apply in_or_app. right. now right.
Qed.

Lemma stat_never_raises (stat_type : string) (k : nat) :
  forall ins, (List.length ins <= k)%nat ->
    (forall tr e rest,
        _get_user_traffic_stat stat_type ins <> (tr, Raised e rest)) /\
    (forall n tr e rest,
        confirm_loop stat_type n ins <> (tr, Raised e rest)).
Proof.
  induction k as [|k IH]; intros ins Hlen.
  - destruct ins; [|simpl in Hlen; lia]. split; intros; discriminate.
  - destruct ins as [|a ins]; [split; intros; discriminate|].
    simpl in Hlen. assert (Hk : (List.length ins <= k)%nat) by lia.
    destruct (IH ins Hk) as [IHo IHi]. split.
    + intros tr e rest H.
      destruct (py_int a) as [n|] eqn:Hp.
      * rewrite (stat_valid _ _ _ _ Hp) in H.
        apply emit_inv in H as (tr' & H & _). exact (IHi _ _ _ _ H).
      * rewrite (stat_invalid _ _ _ Hp) in H.
        apply emit_inv in H as (tr' & H & _). exact (IHo _ _ _ H).
    + intros n tr e rest H.
      destruct (accepts (lower a)) eqn:Ha.
      * rewrite (confirm_accept _ _ _ _ Ha) in H. discriminate.
      * destruct (rejects (lower a)) eqn:Hr.
        -- rewrite (confirm_reject _ _ _ _ Ha Hr) in H.
           apply emit_inv in H as (tr' & H & _). exact (IHo _ _ _ H).
        -- rewrite (confirm_other _ _ _ _ Ha Hr) in H.
           apply emit_inv in H as (tr' & H & _). exact (IHi _ _ _ _ H).
Qed.

Lemma collect_never_raises (stats : list string) :
  forall acc ins tr e rest, collect stats acc ins <> (tr, Raised e rest).
Proof.
  induction stats as [|stat more IH]; intros acc ins tr e rest H;
    [discriminate|].
  cbn [collect] in H. unfold bind in H.
  destruct (_get_user_traffic_stat stat ins) as [tr1 [a mid| |e1 mid]] eqn:E.
  - apply emit_inv in H as (tr2 & H & _). exact (IH _ _ _ _ _ H).
  - discriminate.
  - exact (proj1 (stat_never_raises stat _ ins (le_n _)) _ _ _ E).
Qed.

Lemma collect_done (stats : list string) :
  forall acc ins tr vs rest,
    collect stats acc ins = (tr, Done vs rest) ->
    exists new, vs = acc ++ new /\
                List.length new = List.length stats /\
                Forall (entered ins) new.
Proof.
  induction stats as [|stat more IH]; intros acc ins tr vs rest H.
  - inversion H; subst. exists []. now rewrite app_nil_r.
  - cbn [collect] in H.
    apply bind_inv in H as (tr1 & a & mid & tr2 & Hs & Hc & _).
    apply stat_answered, answered_entered in Hs as [Ha Hmid].
    apply IH in Hc as (new & -> & Hlen & HF).
    exists (a :: new). rewrite <- app_assoc. repeat split.
    + simpl. now rewrite Hlen.
    + constructor; [exact Ha|].
      eapply Forall_impl; [|exact HF]. exact Hmid.
Qed.

Lemma get_user_traffic_done (traffic_type : string) (conf : stream_conf)
  (flow : dict) (stats : list string) (ins : list string) (tr : list event)
  (vs : list Z) (rest : list string) :
  get_user_traffic traffic_type conf flow stats ins = (tr, Done vs rest) ->
  List.length vs = List.length stats /\ Forall (entered ins) vs.
Proof.
  unfold get_user_traffic. intros H.
  apply bind_inv in H as (tr1 & [] & mid & tr2 & Hp & Hc & _).
  inversion Hp; subst.
  apply collect_done in Hc as (new & -> & Hlen & HF). now split.
Qed.

Lemma get_user_traffic_never_raises (traffic_type : string)
  (conf : stream_conf) (flow : dict) (stats : list string)
  (ins : list string) (tr : list event) (e : exn) (rest : list string) :
  get_user_traffic traffic_type conf flow stats ins <> (tr, Raised e rest).
Proof.
  unfold get_user_traffic, bind, print. intros H.
  apply emit_inv in H as (tr' & H & _).
  exact (collect_never_raises _ _ _ _ _ _ H).
Qed.

(** The dialogue does not depend on how the request is worded. *)
Lemma get_user_traffic_label (ty1 ty2 : string) (c1 c2 : stream_conf)
  (flow : dict) (stats : list string) (ins : list string) :
  get_user_traffic ty1 c1 flow stats ins
  = (Announce ty1 c1 flow :: fst (collect stats [] ins),
     snd (collect stats [] ins)) /\
  get_user_traffic ty2 c2 flow stats ins
  = (Announce ty2 c2 flow :: fst (collect stats [] ins),
     snd (collect stats [] ins)).
Proof.
  unfold get_user_traffic, bind, print, emit.
  destruct (collect stats [] ins) as [tr [a rest| |e rest]]; split;
    reflexivity.
Qed.

(** ** The test methods *)

Arguments double : simpl never.
Arguments fdiv : simpl never.
Arguments fmul : simpl never.

Lemma float_of_int_cases (n : Z) :
  float_of_int n = if fitsb n then Ok (double n) else Err OverflowError.
Proof.
  unfold fitsb, float_of_int, double.
  destruct (binary_normalize prec emax n 0 false); reflexivity.
Qed.

Lemma truediv_cases (a : spec_float) (b : Z) :
  b <> 0 ->
  truediv a b = if fitsb b then Ok (fdiv a (double b)) else Err OverflowError.
Proof.
  intros Hb. unfold truediv. rewrite float_of_int_cases.
  destruct (fitsb b); [|reflexivity].
  simpl. apply Z.eqb_neq in Hb. now rewrite Hb.
Qed.

Lemma mul_float_int (a : spec_float) (s : Z) :
  mul_float a (PInt s)
  = if fitsb s then Ok (fmul a (double s)) else Err OverflowError.
Proof.
  unfold mul_float. rewrite float_of_int_cases. now destruct (fitsb s).
Qed.

(** Runs the rest of a method once the outcome of each conversion is
    known. *)
Ltac run_method Ht :=
  repeat (cbv [lift ret raise emit fst snd float_at index nth_error
               rbind forallb andb];
          cbn [app];
          rewrite ?float_of_int_cases, ?mul_float_int,
            ?(truediv_cases _ _ Ht);
          repeat match goal with
                 | H : fitsb _ = _ |- _ => rewrite H
                 end);
  rewrite ?app_nil_r; reflexivity.

(** Runs the pure steps of a method. *)
Ltac crunch :=
  cbv [lift ret raise emit fst snd index nth_error rbind BurstResult_of];
  cbn [app]; rewrite ?app_nil_r.

Section Methods.

Variable can_allocate : ResultsConstants -> Z -> bool.
Variable traffic_defaults : dict.
Variable merge_spec : dict -> dict -> result dict.
Variable traffic : option dict.
Variable traffic_ : dict.
Hypothesis Heff : effective_traffic traffic_defaults merge_spec traffic = Ok
  traffic_.

Lemma send_cont_traffic_outcome (time framerate : Z) (multistream : bool)
  (ins : list string) (s : Z) (tr : list event) (tx rx mn mx av : Z)
  (rest : list string) :
  framesize_of traffic_ = Ok (PInt s) ->
  time <> 0 ->
  get_user_traffic "continuous" (ContConf time framerate multistream)
    traffic_ throughput_stats ins = (tr, Done [tx; rx; mn; mx; av] rest) ->
  send_cont_traffic traffic_defaults merge_spec traffic time framerate
    multistream ins
  = (tr, if forallb fitsb [tx; time; rx; s; mn; mx; av]
         then Done (derived time s tx rx mn mx av) rest
         else Raised OverflowError rest).
Proof.
  intros Hfs Ht Hget.
  unfold send_cont_traffic, bind. rewrite Heff. cbn [lift ret emit fst snd app].
  unfold throughput_stats in Hget. rewrite Hget.
  cbn [lift ret emit fst snd app]. rewrite Hfs.
  destruct (fitsb tx) eqn:Etx; [|run_method Ht].
  destruct (fitsb time) eqn:Et; [|run_method Ht].
  destruct (fitsb rx) eqn:Erx; [|run_method Ht].
  destruct (fitsb s) eqn:Es; [|run_method Ht].
  destruct (fitsb mn) eqn:Emn; [|run_method Ht].
  destruct (fitsb mx) eqn:Emx; [|run_method Ht].
  destruct (fitsb av) eqn:Eav; run_method Ht.
Qed.

Lemma send_cont_traffic_blocked (time framerate : Z) (multistream : bool)
  (ins : list string) (tr : list event) :
  get_user_traffic "continuous" (ContConf time framerate multistream)
    traffic_ throughput_stats ins = (tr, Blocked) ->
  send_cont_traffic traffic_defaults merge_spec traffic time framerate
    multistream ins = (tr, Blocked).
Proof.
  intros Hget. unfold send_cont_traffic, bind. rewrite Heff.
  unfold throughput_stats in Hget. cbn [lift ret emit fst snd app].
  now rewrite Hget.
Qed.

Lemma send_burst_traffic_frame_outcome (numpkts time framerate : Z)
  (ins : list string) (tr : list event) (r p q : Z) (rest : list string) :
  get_user_traffic "burst" (BurstConf numpkts time) traffic_ burst_stats ins
  = (tr, Done [r; p; q] rest) ->
  send_burst_traffic_frame can_allocate traffic_defaults merge_spec traffic
    numpkts time
    framerate ins
  = (tr, match burst_bytes can_allocate traffic_ numpkts r with
         | Ok (tb, rb) =>
             Done (mkBurstFrame
                     [(TX_FRAMES, PInt numpkts); (RX_FRAMES, PInt r);
                      (TX_BYTES, tb); (RX_BYTES, rb);
                      (PAYLOAD_ERR, PInt p); (SEQ_ERR, PInt q)]
                     (mkBurstResult r p q)) rest
         | Err e => Raised e rest
         end).
Proof.
  intros Hget. unfold send_burst_traffic_frame, burst_bytes, bind.
  rewrite Heff. cbn [lift ret emit fst snd app].
  unfold burst_stats in Hget. rewrite Hget.
  destruct (framesize_of traffic_) as [fs|e]; crunch; [|reflexivity].
  destruct (mul_int (can_allocate TX_BYTES) fs numpkts) as [tb|e]; crunch;
    [|reflexivity].
  destruct (mul_int (can_allocate RX_BYTES) fs r) as [rb|e]; crunch;
    reflexivity.
Qed.

Lemma send_burst_traffic_frame_blocked (numpkts time framerate : Z)
  (ins : list string) (tr : list event) :
  get_user_traffic "burst" (BurstConf numpkts time) traffic_ burst_stats ins
  = (tr, Blocked) ->
  send_burst_traffic_frame can_allocate traffic_defaults merge_spec traffic
    numpkts time
    framerate ins = (tr, Blocked).
Proof.
  intros Hget. unfold send_burst_traffic_frame, bind. rewrite Heff.
  unfold burst_stats in Hget. cbn [lift ret emit fst snd app].
  now rewrite Hget.
Qed.

End Methods.

Lemma send_burst_traffic_of_frame (can_allocate : ResultsConstants -> Z -> bool)
  (traffic_defaults : dict)
  (merge_spec : dict -> dict -> result dict) (traffic : option dict)
  (numpkts time framerate : Z) (ins : list string) :
  send_burst_traffic can_allocate traffic_defaults merge_spec traffic numpkts
    time
    framerate ins
  = match send_burst_traffic_frame can_allocate traffic_defaults merge_spec
    traffic
            numpkts time framerate ins with
    | (tr, Done frame rest) => (tr, Done (burst_returned frame) rest)
    | (tr, Blocked) => (tr, Blocked)
    | (tr, Raised e rest) => (tr, Raised e rest)
    end.
Proof.
  unfold send_burst_traffic, bind.
  destruct (send_burst_traffic_frame _ _ _ _ _ _ _) as [tr [fr rest| |e rest]];
    try reflexivity.
  unfold emit, ret; simpl. now rewrite app_nil_r.
Qed.

Lemma merge_error (can_allocate : ResultsConstants -> Z -> bool)
  (traffic_defaults : dict)
  (merge_spec : dict -> dict -> result dict) (traffic : option dict)
  (e : exn) (ins : list string) :
  effective_traffic traffic_defaults merge_spec traffic = Err e ->
  (forall numpkts time framerate,
      send_burst_traffic_frame can_allocate traffic_defaults merge_spec traffic
        numpkts
        time framerate ins = ([], Raised e ins)) /\
  (forall time framerate multistream,
      send_cont_traffic traffic_defaults merge_spec traffic time framerate
        multistream ins = ([], Raised e ins)) /\
  (forall trials duration lossrate multistream,
      send_rfc2544_throughput traffic_defaults merge_spec traffic trials
        duration lossrate multistream ins = ([], Raised e ins)).
Proof.
  intros H. repeat split; intros;
    unfold send_burst_traffic_frame, send_cont_traffic,
      send_rfc2544_throughput, bind; now rewrite H.
Qed.

(** The throughput test is the continuous test under another wording. *)
Lemma throughput_as_continuous (traffic_defaults : dict)
  (merge_spec : dict -> dict -> result dict) (traffic : option dict)
  (trials t framerate : Z) (lossrate : spec_float) (ms ms' : bool)
  (ins : list string) :
  send_rfc2544_throughput traffic_defaults merge_spec traffic trials t
    lossrate ms' ins
  = reword "throughput" (ThroughputConf trials t lossrate ms')
      (send_cont_traffic traffic_defaults merge_spec traffic t framerate ms
         ins).
Proof.
  unfold send_rfc2544_throughput, send_cont_traffic, bind.
  destruct (effective_traffic traffic_defaults merge_spec traffic)
    as [traffic_|e]; [|reflexivity].
  cbv [lift ret].
  destruct (get_user_traffic_label "throughput" "continuous"
              (ThroughputConf trials t lossrate ms') (ContConf t framerate ms)
              traffic_ throughput_stats ins) as [H1 H2].
  unfold throughput_stats in H1, H2. rewrite H1, H2.
  destruct (collect _ [] ins) as [tr [vs rest| |e rest]]; reflexivity.
Qed.

Lemma reword_inv {A} (ty : string) (c : stream_conf) (r : run A)
  (tr : list event) (st : status A) :
  reword ty c r = (tr, st) -> exists tr', r = (tr', st).
Proof.
  destruct r as [t s0]. unfold reword; simpl.
  destruct t as [|[] t]; intros H; inversion H; subst; eauto.
Qed.

Lemma send_cont_traffic_announces (traffic_defaults : dict)
  (merge_spec : dict -> dict -> result dict) (traffic : option dict)
  (traffic_ : dict) (t framerate : Z) (ms : bool) (ins : list string) :
  effective_traffic traffic_defaults merge_spec traffic = Ok traffic_ ->
  exists tr,
    fst (send_cont_traffic traffic_defaults merge_spec traffic t framerate ms
           ins)
    = Announce "continuous" (ContConf t framerate ms) traffic_ :: tr.
Proof.
  intros Heff. unfold send_cont_traffic, bind. rewrite Heff. cbv [lift ret].
  destruct (get_user_traffic_label "continuous" "continuous"
              (ContConf t framerate ms) (ContConf t framerate ms)
              traffic_ throughput_stats ins) as [H1 _].
  unfold throughput_stats in H1. rewrite H1.
  destruct (collect _ [] ins) as [tr [vs rest| |e rest]];
    cbn [fst snd emit app]; eauto.
Qed.

(** C6.  For the same duration, configuration and operator lines, the
    continuous test and the throughput test end the same way: the same
    record returned (or the same exception, or both waiting), the same lines
    left unread, and the same dialogue after the first line printed; only
    that first line, the request to send traffic, differs in its label and
    parameters.  The number of trials, the loss rate and the multistream
    flags have no influence on the outcome. *)
Theorem throughput_equals_continuous (traffic_defaults : dict)
  (merge_spec : dict -> dict -> result dict) (traffic : option dict)
  (t framerate trials : Z) (lossrate : spec_float) (ms_c ms_t : bool)
  (ins : list string) :
  let c := send_cont_traffic traffic_defaults merge_spec traffic t framerate
             ms_c ins in
  let r := send_rfc2544_throughput traffic_defaults merge_spec traffic trials
             t lossrate ms_t ins in
  snd r = snd c /\
  tl (fst r) = tl (fst c) /\
  (forall traffic_,
      effective_traffic traffic_defaults merge_spec traffic = Ok traffic_ ->
      hd_error (fst c)
      = Some (Announce "continuous" (ContConf t framerate ms_c) traffic_) /\
      hd_error (fst r)
      = Some (Announce "throughput"
                (ThroughputConf trials t lossrate ms_t) traffic_)).
Proof.
  intros c r. subst r.
  rewrite (throughput_as_continuous _ _ _ trials t framerate lossrate ms_c
             ms_t ins).
  fold c.
  pose proof (fun traffic_ H =>
                send_cont_traffic_announces traffic_defaults merge_spec
                  traffic traffic_ t framerate ms_c ins H) as Hann.
  fold c in Hann. clearbody c. destruct c as [tc sc].
  unfold reword; cbn [fst snd] in *. repeat split.
  - destruct tc as [|[] tr]; reflexivity.
  - destruct tc as [|[] tr]; reflexivity.
  - destruct (Hann _ H) as [tr ->]. reflexivity.
  - destruct (Hann _ H) as [tr ->]. reflexivity.
Qed.

Lemma throughput_equals_continuous_witness :
  effective_traffic defaults64 override_spec (Some TRAFFIC)
  = Ok [("l2", PDict [("framesize", PInt 64);
                      ("srcmac", PStr "00:00:00:00:00:00")]);
        ("l3", PDict [("proto", PStr "tcp"); ("srcip", PStr "1.1.1.1");
                      ("dstip", PStr "90.90.90.90")])] /\
  snd (send_rfc2544_throughput defaults64 override_spec (Some TRAFFIC) 3 20
         (S754_zero false) true scenario_throughput)
  = snd (send_cont_traffic defaults64 override_spec (Some TRAFFIC) 20 0 false
           scenario_throughput) /\
  hd_error (fst (send_rfc2544_throughput defaults64 override_spec
                   (Some TRAFFIC) 3 20 (S754_zero false) true
                   scenario_throughput))
  = Some (Announce "throughput" (ThroughputConf 3 20 (S754_zero false) true)
            [("l2", PDict [("framesize", PInt 64);
                           ("srcmac", PStr "00:00:00:00:00:00")]);
             ("l3", PDict [("proto", PStr "tcp"); ("srcip", PStr "1.1.1.1");
                           ("dstip", PStr "90.90.90.90")])]).
Proof.
  split; [reflexivity|].
  pose proof (throughput_equals_continuous defaults64 override_spec
                (Some TRAFFIC) 20 0 3 (S754_zero false) false true
                scenario_throughput) as (H1 & _ & H3).
  split; [exact H1|].
  exact (proj2 (H3 _ eq_refl)).
Defined.

(** C3.  With a duration [t > 0], an integer frame size [s] and the answers
    [tx], [rx], [mn], [mx], [av] collected from the operator, the continuous
    test returns the record of the specification, [derived]:
    tx_fps = tx / t, rx_fps = rx / t, tx_mbps = tx * s / t,
    rx_mbps = rx * s / t in double arithmetic, both percentages 0.0 and the
    latencies as doubles; the throughput test returns the same record after
    a dialogue that differs in the wording of the request only.  (When one of
    the integers is beyond the range of doubles, no record is returned: the
    conversion raises [OverflowError].)  In the scenario t = 20, s = 64,
    tx = 2000, rx = 1900, min = 10, max = 50, avg = 25 the record holds
    100.0, 95.0, 6400.0, 6080.0, 0.0, 0.0, 10.0, 50.0 and 25.0. *)
Theorem throughput_record (traffic_defaults : dict)
  (merge_spec : dict -> dict -> result dict) (traffic : option dict)
  (traffic_ : dict) (t s framerate trials : Z) (lossrate : spec_float)
  (ms_c ms_t : bool) (ins : list string) (tr : list event)
  (tx rx mn mx av : Z) (rest : list string) :
  t > 0 ->
  effective_traffic traffic_defaults merge_spec traffic = Ok traffic_ ->
  framesize_of traffic_ = Ok (PInt s) ->
  get_user_traffic "continuous" (ContConf t framerate ms_c) traffic_
    throughput_stats ins = (tr, Done [tx; rx; mn; mx; av] rest) ->
  let outcome :=
    if forallb fitsb [tx; t; rx; s; mn; mx; av]
    then Done (derived t s tx rx mn mx av) rest
    else Raised OverflowError rest in
  send_cont_traffic traffic_defaults merge_spec traffic t framerate ms_c ins
  = (tr, outcome) /\
  send_rfc2544_throughput traffic_defaults merge_spec traffic trials t
    lossrate ms_t ins
  = reword "throughput" (ThroughputConf trials t lossrate ms_t) (tr, outcome)
  /\
  snd (send_cont_traffic defaults64 override_spec None 20 0 false
         scenario_throughput)
  = Done [(THROUGHPUT_TX_FPS, PFloat (double 100));
          (THROUGHPUT_RX_FPS, PFloat (double 95));
          (THROUGHPUT_TX_MBPS, PFloat (double 6400));
          (THROUGHPUT_RX_MBPS, PFloat (double 6080));
          (THROUGHPUT_TX_PERCENT, PFloat (S754_zero false));
          (THROUGHPUT_RX_PERCENT, PFloat (S754_zero false));
          (MIN_LATENCY_NS, PFloat (double 10));
          (MAX_LATENCY_NS, PFloat (double 50));
          (AVG_LATENCY_NS, PFloat (double 25))] [].
Proof.
  intros Ht Heff Hfs Hget outcome.
  assert (Hc : send_cont_traffic traffic_defaults merge_spec traffic t
                 framerate ms_c ins = (tr, outcome)).
  { apply (send_cont_traffic_outcome _ _ _ _ Heff); [exact Hfs | lia |
      exact Hget]. }
  split; [exact Hc|]. split.
  - rewrite (throughput_as_continuous _ _ _ trials t framerate lossrate ms_c
               ms_t ins).
    now rewrite Hc.
  - vm_compute. reflexivity.
Qed.

Lemma throughput_record_witness :
  send_cont_traffic defaults64 override_spec None 20 0 false
    scenario_throughput
  = ([Announce "continuous" (ContConf 20 0 false) defaults64;
      AskStat "frames tx"; AskCorrect 2000;
      AskStat "frames rx"; AskCorrect 1900;
      AskStat "min latency"; AskCorrect 10;
      AskStat "max latency"; AskCorrect 50;
      AskStat "avg latency"; AskCorrect 25],
     Done (derived 20 64 2000 1900 10 50 25) []).
Proof.
  apply (proj1 (throughput_record defaults64 override_spec None defaults64
                  20 64 0 3 (S754_zero false) false false scenario_throughput
                  _ 2000 1900 10 50 25 []
                  ltac:(lia) eq_refl eq_refl eq_refl)).
Defined.

(** C4.  With [n] packets, an integer frame size [s] and the answers [r],
    [p], [q] collected from the operator, the dictionary built by the burst
    test holds TX_FRAMES = n, RX_FRAMES = r, TX_BYTES = s * n,
    RX_BYTES = s * r, PAYLOAD_ERR = p and SEQ_ERR = q; for n = 100, s = 64,
    r = 90, p = 2, q = 1 these are 100, 90, 6400, 5760, 2 and 1. *)
Theorem burst_dictionary (can_allocate : ResultsConstants -> Z -> bool)
  (traffic_defaults : dict)
  (merge_spec : dict -> dict -> result dict) (traffic : option dict)
  (traffic_ : dict) (n time framerate s : Z) (ins : list string)
  (tr : list event) (r p q : Z) (rest : list string) :
  effective_traffic traffic_defaults merge_spec traffic = Ok traffic_ ->
  framesize_of traffic_ = Ok (PInt s) ->
  get_user_traffic "burst" (BurstConf n time) traffic_ burst_stats ins
  = (tr, Done [r; p; q] rest) ->
  (exists frame,
      send_burst_traffic_frame can_allocate traffic_defaults merge_spec traffic
        n time
        framerate ins = (tr, Done frame rest) /\
      burst_result frame = burst_constants n s r p q /\
      field TX_FRAMES (burst_result frame) = Some (PInt n) /\
      field RX_FRAMES (burst_result frame) = Some (PInt r) /\
      field TX_BYTES (burst_result frame) = Some (PInt (s * n)) /\
      field RX_BYTES (burst_result frame) = Some (PInt (s * r)) /\
      field PAYLOAD_ERR (burst_result frame) = Some (PInt p) /\
      field SEQ_ERR (burst_result frame) = Some (PInt q)) /\
  (exists trace frame,
      send_burst_traffic_frame allocates_1G defaults64 override_spec None 100
        20 100
        scenario_burst = (trace, Done frame []) /\
      burst_result frame
      = [(TX_FRAMES, PInt 100); (RX_FRAMES, PInt 90); (TX_BYTES, PInt 6400);
         (RX_BYTES, PInt 5760); (PAYLOAD_ERR, PInt 2); (SEQ_ERR, PInt 1)]).
Proof.
  intros Heff Hfs Hget. split.
  - rewrite (send_burst_traffic_frame_outcome _ _ _ _ _ Heff n time framerate
               ins tr r p q rest Hget).
    unfold burst_bytes. rewrite Hfs. cbn [rbind mul_int].
    eexists. split; [reflexivity|]. repeat split.
  - do 2 eexists. split; vm_compute; reflexivity.
Qed.

Lemma burst_dictionary_witness :
  exists frame,
    send_burst_traffic_frame allocates_1G defaults64 override_spec None 100 20
      100
      scenario_burst
    = ([Announce "burst" (BurstConf 100 20) defaults64;
        AskStat "frames rx"; AskCorrect 90;
        AskStat "payload errors"; AskCorrect 2;
        AskStat "sequence errors"; AskCorrect 1], Done frame []) /\
    burst_result frame = burst_constants 100 64 90 2 1.
Proof.
  destruct (proj1 (burst_dictionary allocates_1G defaults64 override_spec None
    defaults64
                     100 20 100 64 scenario_burst _ 90 2 1 []
                     eq_refl eq_refl eq_refl))
    as (frame & H1 & H2 & _).
  exists frame. split; [exact H1 | exact H2].
Defined.

Lemma three_values (vs : list Z) :
  List.length vs = 3%nat -> exists r p q, vs = [r; p; q].
Proof.
  destruct vs as [|r [|p [|q [|x vs]]]]; try discriminate. eauto.
Qed.

Lemma five_values (vs : list Z) :
  List.length vs = 5%nat -> exists a b c d e, vs = [a; b; c; d; e].
Proof.
  destruct vs as [|a [|b [|c [|d [|e [|x vs]]]]]]; try discriminate.
  intros _. now exists a, b, c, d, e.
Qed.

(** C1.  Whatever the arguments and whatever the operator types, the burst
    test returns a value exactly when the configuration merge succeeds, the
    operator completes the three answers [r], [p], [q] (received frames,
    payload errors, sequence errors) and the two byte counts,
    [framesize * numpkts] and [framesize * r], can be computed.  By then the
    method has built the dictionary [result]: TX_FRAMES is [numpkts],
    RX_FRAMES is [r], TX_BYTES and RX_BYTES are the two byte counts,
    PAYLOAD_ERR is [p] and SEQ_ERR is [q].  But what it returns is not that
    dictionary: it is the [BurstResult] made of [r], [p], [q] in that
    order. *)
Theorem burst_returns_burst_result (can_allocate : ResultsConstants -> Z ->
  bool)
  (traffic_defaults : dict)
  (merge_spec : dict -> dict -> result dict) (traffic : option dict)
  (numpkts time framerate : Z) (ins : list string) (tr : list event)
  (rest : list string) :
  (forall v,
      send_burst_traffic can_allocate traffic_defaults merge_spec traffic
        numpkts time framerate ins = (tr, Done v rest)
      <->
      exists traffic_ r p q fs tb rb,
        effective_traffic traffic_defaults merge_spec traffic = Ok traffic_ /\
        get_user_traffic "burst" (BurstConf numpkts time) traffic_ burst_stats
          ins = (tr, Done [r; p; q] rest) /\
        framesize_of traffic_ = Ok fs /\
        mul_int (can_allocate TX_BYTES) fs numpkts = Ok tb /\
        mul_int (can_allocate RX_BYTES) fs r = Ok rb /\
        v = mkBurstResult r p q) /\
  (forall traffic_ r p q fs tb rb,
      effective_traffic traffic_defaults merge_spec traffic = Ok traffic_ ->
      get_user_traffic "burst" (BurstConf numpkts time) traffic_ burst_stats
        ins = (tr, Done [r; p; q] rest) ->
      framesize_of traffic_ = Ok fs ->
      mul_int (can_allocate TX_BYTES) fs numpkts = Ok tb ->
      mul_int (can_allocate RX_BYTES) fs r = Ok rb ->
      send_burst_traffic_frame can_allocate traffic_defaults merge_spec
        traffic numpkts time framerate ins
      = (tr, Done (mkBurstFrame
                     [(TX_FRAMES, PInt numpkts); (RX_FRAMES, PInt r);
                      (TX_BYTES, tb); (RX_BYTES, rb);
                      (PAYLOAD_ERR, PInt p); (SEQ_ERR, PInt q)]
                     (mkBurstResult r p q)) rest)).
Proof.
  assert (Hframe : forall traffic_ r p q fs tb rb,
    effective_traffic traffic_defaults merge_spec traffic = Ok traffic_ ->
    get_user_traffic "burst" (BurstConf numpkts time) traffic_ burst_stats
      ins = (tr, Done [r; p; q] rest) ->
    framesize_of traffic_ = Ok fs ->
    mul_int (can_allocate TX_BYTES) fs numpkts = Ok tb ->
    mul_int (can_allocate RX_BYTES) fs r = Ok rb ->
    send_burst_traffic_frame can_allocate traffic_defaults merge_spec
      traffic numpkts time framerate ins
    = (tr, Done (mkBurstFrame
                   [(TX_FRAMES, PInt numpkts); (RX_FRAMES, PInt r);
                    (TX_BYTES, tb); (RX_BYTES, rb);
                    (PAYLOAD_ERR, PInt p); (SEQ_ERR, PInt q)]
                   (mkBurstResult r p q)) rest)).
  { intros traffic_ r p q fs tb rb Heff Hget Hfs Htb Hrb.
    rewrite (send_burst_traffic_frame_outcome _ _ _ _ _ Heff _ _ framerate
               _ _ _ _ _ _ Hget).
    unfold burst_bytes. rewrite Hfs. cbn [rbind]. rewrite Htb. cbn [rbind].
    rewrite Hrb. reflexivity. }
  split; [|exact Hframe].
  intros v. rewrite send_burst_traffic_of_frame. split.
  - intros H.
    destruct (effective_traffic traffic_defaults merge_spec traffic)
      as [traffic_|e] eqn:Heff.
    2:{ rewrite (proj1 (merge_error _ _ _ _ _ ins Heff)) in H.
        discriminate. }
    destruct (get_user_traffic "burst" (BurstConf numpkts time) traffic_
                burst_stats ins) as [tr0 [vs rest0| |e rest0]] eqn:Hget.
    + destruct (get_user_traffic_done _ _ _ _ _ _ _ _ Hget) as [Hlen _].
      apply three_values in Hlen as (r & p & q & ->).
      rewrite (send_burst_traffic_frame_outcome _ _ _ _ _ Heff _ _ framerate
                 _ _ _ _ _ _ Hget) in H.
      unfold burst_bytes in H.
      destruct (framesize_of traffic_) as [fs|e] eqn:Hfs; [|discriminate].
      cbn [rbind] in H.
      destruct (mul_int (can_allocate TX_BYTES) fs numpkts) as [tb|e] eqn:Htb;
        [|discriminate].
      cbn [rbind] in H.
      destruct (mul_int (can_allocate RX_BYTES) fs r) as [rb|e] eqn:Hrb;
        [|discriminate].
      inversion H; subst.
      exists traffic_, r, p, q, fs, tb, rb.
      repeat split; try assumption; reflexivity.
    + rewrite (send_burst_traffic_frame_blocked _ _ _ _ _ Heff _ _ framerate
                 _ _ Hget) in H. discriminate.
    + exfalso. exact (get_user_traffic_never_raises _ _ _ _ _ _ _ _ Hget).
  - intros (traffic_ & r & p & q & fs & tb & rb & Heff & Hget & Hfs & Htb
            & Hrb & ->).
    now rewrite (Hframe _ _ _ _ _ _ _ Heff Hget Hfs Htb Hrb).
Qed.

Lemma burst_returns_burst_result_witness :
  send_burst_traffic allocates_1G defaults64 override_spec None 100 20 100
    scenario_burst
  = ([Announce "burst" (BurstConf 100 20) defaults64;
      AskStat "frames rx"; AskCorrect 90;
      AskStat "payload errors"; AskCorrect 2;
      AskStat "sequence errors"; AskCorrect 1],
     Done (mkBurstResult 90 2 1) []) /\
  send_burst_traffic_frame allocates_1G defaults64 override_spec None 100 20
    100 scenario_burst
  = ([Announce "burst" (BurstConf 100 20) defaults64;
      AskStat "frames rx"; AskCorrect 90;
      AskStat "payload errors"; AskCorrect 2;
      AskStat "sequence errors"; AskCorrect 1],
     Done (mkBurstFrame
             [(TX_FRAMES, PInt 100); (RX_FRAMES, PInt 90);
              (TX_BYTES, PInt (64 * 100)); (RX_BYTES, PInt (64 * 90));
              (PAYLOAD_ERR, PInt 2); (SEQ_ERR, PInt 1)]
             (mkBurstResult 90 2 1)) []).
Proof.
  destruct (burst_returns_burst_result allocates_1G defaults64 override_spec
              None 100 20 100 scenario_burst
              [Announce "burst" (BurstConf 100 20) defaults64;
               AskStat "frames rx"; AskCorrect 90;
               AskStat "payload errors"; AskCorrect 2;
               AskStat "sequence errors"; AskCorrect 1] [])
    as [Hret Hframe].
  split.
  - apply (proj2 (Hret (mkBurstResult 90 2 1))).
    exists defaults64, 90, 2, 1, (PInt 64), (PInt (64 * 100)),
      (PInt (64 * 90)).
    repeat split.
  - apply (Hframe defaults64 90 2 1 (PInt 64) (PInt (64 * 100))
             (PInt (64 * 90))); reflexivity.
Defined.

(** ** The double of an integer is a whole number *)

Lemma iter_pos_invariant {A} (P : A -> Prop) (f : A -> A) :
  (forall x, P x -> P (f x)) ->
  forall n x, P x -> P (iter_pos f n x).
Proof.
  intros Hf. induction n as [n IH|n IH|]; intros x Hx; simpl; auto.
Qed.

Lemma shr_1_nonneg (mrs : shr_record) :
  0 <= shr_m mrs -> 0 <= shr_m (shr_1 mrs).
Proof.
  destruct mrs as [m r s]; simpl.
  destruct m as [|[p|p|]|[p|p|]]; simpl; lia.
Qed.

Lemma shr_nonneg (mrs : shr_record) (e n : Z) :
  0 <= shr_m mrs ->
  0 <= shr_m (fst (shr mrs e n)) /\ e <= snd (shr mrs e n).
Proof.
  intros H. unfold shr. destruct n as [|p|p]; simpl; try (split;
    [assumption|lia]).
  split; [|lia]. apply iter_pos_invariant; [apply shr_1_nonneg | exact H].
Qed.

Lemma shr_record_of_loc_m (m : Z) (l : location) :
  shr_m (shr_record_of_loc m l) = m.
Proof. destruct l as [|[]]; reflexivity. Qed.

Lemma shr_fexp_nonneg (m e : Z) (l : location) :
  0 <= m ->
  0 <= shr_m (fst (shr_fexp prec emax m e l)) /\
  e <= snd (shr_fexp prec emax m e l).
Proof.
  intros H. unfold shr_fexp. apply shr_nonneg.
  now rewrite shr_record_of_loc_m.
Qed.

Lemma round_nearest_even_nonneg (m : Z) (l : location) :
  0 <= m -> 0 <= round_nearest_even m l.
Proof.
  intros H. destruct l as [|[]]; simpl; try lia.
  destruct (Z.even m); lia.
Qed.

(** Rounding a mantissa at a non-negative exponent never yields a
    fraction. *)
Lemma binary_round_aux_integral (sx : bool) (m e : Z) (l : location) :
  0 <= m -> 0 <= e ->
  match binary_round_aux prec emax sx m e l with
  | S754_infinity _ => True
  | f => integral f
  end.
Proof.
  intros Hm He. unfold binary_round_aux.
  pose proof (shr_fexp_nonneg m e l Hm) as [H1 H2].
  destruct (shr_fexp prec emax m e l) as [mrs' e']. cbn [fst snd] in *.
  pose proof (shr_fexp_nonneg
                (round_nearest_even (shr_m mrs') (loc_of_shr_record mrs'))
                e' loc_Exact (round_nearest_even_nonneg _ _ H1)) as [H3 H4].
  destruct (shr_fexp prec emax _ e' loc_Exact) as [mrs'' e''].
  cbn [fst snd] in *.
  destruct (shr_m mrs'') as [|q|q].
  - exact I.
  - destruct (e'' <=? emax - prec); [left; lia | exact I].
  - simpl in H3. lia.
Qed.

Lemma digits2_pos_iter_xO (p k : positive) :
  Z.pos (digits2_pos (Pos.iter xO p k)) = Z.pos (digits2_pos p) + Z.pos k.
Proof.
  induction k using Pos.peano_ind.
  - simpl. lia.
  - rewrite Pos.iter_succ. cbn [digits2_pos]. lia.
Qed.

Lemma iter_xO_value (p k : positive) :
  Z.pos (Pos.iter xO p k) = Z.pos p * 2 ^ Z.pos k.
Proof.
  induction k using Pos.peano_ind.
  - simpl. lia.
  - rewrite Pos.iter_succ, Pos2Z.inj_succ, Z.pow_succ_r by lia.
    rewrite Pos2Z.inj_xO, IHk. lia.
Qed.

Lemma digits2_pos_le (p : positive) : 1 <= Z.pos (digits2_pos p).
Proof. lia. Qed.

Lemma binary_round_integral (sx : bool) (p : positive) :
  match binary_round prec emax sx p 0 with
  | S754_infinity _ => True
  | f => integral f
  end.
Proof.
  unfold binary_round, shl_align.
  set (d := Z.pos (digits2_pos p)).
  assert (Hd : 1 <= d) by (subst d; lia).
  destruct (fexp prec emax (d + 0) - 0) as [|k|k] eqn:Hk;
    try (apply binary_round_aux_integral; lia).
  (* the mantissa is padded to 53 bits and kept as it is *)
  assert (Hf : fexp prec emax (d + 0) = - Z.pos k) by lia.
  rewrite Hf.
  unfold binary_round_aux, shr_fexp. cbn [Zdigits2 shr_record_of_loc].
  rewrite digits2_pos_iter_xO. fold d.
  assert (Hs : fexp prec emax (d + Z.pos k + - Z.pos k) - - Z.pos k = 0).
  { replace (d + Z.pos k + - Z.pos k) with (d + 0) by lia. lia. }
  rewrite Hs. cbn [shr shr_m loc_of_shr_record round_nearest_even Zdigits2
                   shr_record_of_loc].
  rewrite digits2_pos_iter_xO. fold d. rewrite Hs. cbn [shr shr_m].
  destruct (- Z.pos k <=? emax - prec); [|exact I].
  simpl. right. rewrite iter_xO_value. exists (Z.pos p). reflexivity.
Qed.

Lemma double_integral (n : Z) :
  fitsb n = true -> float_of_int n = Ok (double n) /\ integral (double n).
Proof.
  intros H. rewrite float_of_int_cases, H. split; [reflexivity|].
  unfold fitsb, float_of_int in H. fold (double n) in H.
  assert (Hr : match double n with
               | S754_infinity _ => True
               | f => integral f
               end).
  { unfold double, binary_normalize. destruct n as [|p|p];
      [exact I | apply binary_round_integral ..]. }
  destruct (double n); try exact Hr. discriminate.
Qed.

(** ** Records returned by the throughput methods *)

Ltac invert_method H :=
  cbv [lift ret raise emit rbind float_at index nth_error fst snd] in H;
  repeat (cbv beta iota in H;
          first
            [ discriminate H
            | match type of H with
              | context [float_of_int ?n] =>
                  rewrite (float_of_int_cases n) in H;
                  destruct (fitsb n) eqn:?
              | context [match truediv ?a ?b with _ => _ end] =>
                  destruct (truediv a b)
              | context [match mul_float ?a ?b with _ => _ end] =>
                  destruct (mul_float a b)
              end ]).

Lemma send_cont_traffic_latencies (traffic_defaults : dict)
  (merge_spec : dict -> dict -> result dict) (traffic : option dict)
  (t framerate : Z) (ms : bool) (ins : list string) (tr : list event)
  (rec : record) (rest : list string) :
  send_cont_traffic traffic_defaults merge_spec traffic t framerate ms ins
  = (tr, Done rec rest) ->
  latencies_entered ins rec.
Proof.
  intros H. unfold send_cont_traffic, bind in H.
  destruct (effective_traffic traffic_defaults merge_spec traffic)
    as [traffic_|e]; [|discriminate].
  cbv [lift ret] in H.
  destruct (get_user_traffic "continuous" (ContConf t framerate ms) traffic_
              _ ins) as [tr0 [vs rest0| |e rest0]] eqn:Hget;
    [|discriminate..].
  destruct (get_user_traffic_done _ _ _ _ _ _ _ _ Hget) as [Hlen HF].
  apply five_values in Hlen as (tx & rx & mn & mx & av & ->).
  destruct (framesize_of traffic_) as [fs|e]; [|discriminate].
  invert_method H.
  inversion H; subst.
  inversion HF as [|? ? _ HF1]; subst. inversion HF1 as [|? ? _ HF2]; subst.
  inversion HF2 as [|? ? Hmn HF3]; subst.
  inversion HF3 as [|? ? Hmx HF4]; subst.
  inversion HF4 as [|? ? Hav _]; subst.
  repeat split;
    [exists mn | exists mx | exists av];
    (split; [assumption|]);
    match goal with
    | |- float_of_int ?n = _ /\ _ =>
        destruct (double_integral n ltac:(assumption)) as [Hc Hi]
    end;
    (split; [exact Hc|]); (split; [reflexivity | exact Hi]).
Qed.

(** C10.  In a record returned by the continuous test or by the throughput
    test, each of the three latency fields is the double of an integer that
    [int] read from a line of the operator; a line such as '10.5' is refused
    by the validator, which asks again; and the double of an integer is a
    whole number, so no latency of a returned record has a fractional
    part. *)
Theorem latencies_are_entered_integers (traffic_defaults : dict)
  (merge_spec : dict -> dict -> result dict) (traffic : option dict)
  (t framerate trials : Z) (lossrate : spec_float) (ms_c ms_t : bool)
  (ins : list string) (tr : list event) (rec : record) (rest : list string) :
  (send_cont_traffic traffic_defaults merge_spec traffic t framerate ms_c ins
   = (tr, Done rec rest) -> latencies_entered ins rec) /\
  (send_rfc2544_throughput traffic_defaults merge_spec traffic trials t
     lossrate ms_t ins = (tr, Done rec rest) -> latencies_entered ins rec) /\
  py_int "10.5" = None /\
  (forall stat_type rest',
      _get_user_traffic_stat stat_type ("10.5" :: rest')
      = emit [AskStat stat_type; SayInvalid]
             (_get_user_traffic_stat stat_type rest')).
Proof.
  split; [|split; [|split]].
  - apply send_cont_traffic_latencies.
  - rewrite (throughput_as_continuous _ _ _ trials t 0 lossrate false ms_t
               ins).
    intros H. apply reword_inv in H as [tr' H].
    exact (send_cont_traffic_latencies _ _ _ _ _ _ _ _ _ _ H).
  - reflexivity.
  - intros stat_type rest'. now apply stat_invalid.
Qed.

Lemma latencies_are_entered_integers_witness :
  latencies_entered scenario_throughput (derived 20 64 2000 1900 10 50 25).
Proof.
  eapply (proj1 (latencies_are_entered_integers defaults64 override_spec None
                   20 0 3 (S754_zero false) false false scenario_throughput
                   _ _ [])).
  vm_compute. reflexivity.
Defined.

(** ** Failures *)

Lemma snd_reword {A} (ty : string) (c : stream_conf) (r : run A) :
  snd (reword ty c r) = snd r.
Proof.
  destruct r as [t s]. unfold reword. simpl. destruct t as [|[] t]; reflexivity.
Qed.

Lemma fitsb_bool (b : bool) : fitsb (int_of_bool b) = true.
Proof. destruct b; vm_compute; reflexivity. Qed.

(** Whether [a * fs] can be computed depends on [fs] alone. *)
Lemma mul_float_status (a : spec_float) (fs : pyval) :
  (float_operand fs /\ exists v, mul_float a fs = Ok v) \/
  (~ float_operand fs /\ exists e, mul_float a fs = Err e).
Proof.
  destruct fs as [|b|s|f|s|d]; cbn [float_operand];
    try (right; split; [tauto | eexists; reflexivity]).
  - left. split; [exact I|]. unfold mul_float.
    rewrite float_of_int_cases, fitsb_bool. eexists. reflexivity.
  - rewrite mul_float_int. destruct (fitsb s).
    + left. split; [reflexivity | eexists; reflexivity].
    + right. split; [discriminate | eexists; reflexivity].
  - left. split; [exact I | eexists; reflexivity].
Qed.

Lemma repeat_text_status (alloc : Z -> bool) (s : string) (n : Z) :
  (repeats alloc s n /\ exists t, repeat_text alloc s n = Ok t) \/
  (~ repeats alloc s n /\ exists e, repeat_text alloc s n = Err e).
Proof.
  unfold repeat_text, repeats.
  generalize (max_size / n) as m. intros m. unfold max_size.
  destruct (Z.ltb_spec n (- 2 ^ 63)) as [H1|H1]; cbn [orb].
  { right. split; [lia | eexists; reflexivity]. }
  destruct (Z.ltb_spec (2 ^ 63 - 1) n) as [H2|H2].
  { right. split; [lia | eexists; reflexivity]. }
  destruct (Z.ltb_spec n 1) as [H3|H3].
  { left. split; [lia | eexists; reflexivity]. }
  destruct (Z.eqb_spec n 1) as [H4|H4].
  { left. split; [lia | eexists; reflexivity]. }
  destruct (Z.ltb_spec m (text_length s)) as [H5|H5].
  { right. split; [lia | eexists; reflexivity]. }
  destruct (Z.eqb_spec (text_length s) 0) as [H6|H6].
  { left. split; [|eexists; reflexivity].
    split; [lia|]. right. split; [lia|]. now left. }
  destruct (alloc (text_length s * n)) eqn:H7.
  - left. split; [|eexists; reflexivity].
    split; [lia|]. right. split; [lia|]. now right.
  - right. split; [|eexists; reflexivity].
    intros (_ & [H|(_ & [H|H])]); [lia | lia | discriminate].
Qed.

(** Whether [fs * n] can be computed. *)
Lemma mul_int_status (alloc : Z -> bool) (fs : pyval) (n : Z) :
  (int_operand alloc fs n /\ exists v, mul_int alloc fs n = Ok v) \/
  (~ int_operand alloc fs n /\ exists e, mul_int alloc fs n = Err e).
Proof.
  destruct fs as [|b|a|f|s|d]; cbn [int_operand mul_int];
    try (right; split; [tauto | eexists; reflexivity]);
    try (left; split; [exact I | eexists; reflexivity]).
  - rewrite float_of_int_cases. destruct (fitsb n).
    + left. split; [reflexivity | eexists; reflexivity].
    + right. split; [discriminate | eexists; reflexivity].
  - destruct (repeat_text_status alloc s n) as [[H [t Ht]]|[H [e He]]].
    + left. split; [exact H|]. rewrite Ht. eexists. reflexivity.
    + right. split; [exact H|]. rewrite He. eexists. reflexivity.
Qed.

Lemma burst_bytes_status (alloc : ResultsConstants -> Z -> bool)
  (traffic_ : dict) (numpkts r : Z) :
  (burst_safe alloc traffic_ numpkts r /\
   exists b, burst_bytes alloc traffic_ numpkts r = Ok b) \/
  (~ burst_safe alloc traffic_ numpkts r /\
   exists e, burst_bytes alloc traffic_ numpkts r = Err e).
Proof.
  unfold burst_bytes, burst_safe.
  destruct (framesize_of traffic_) as [fs|e]; cbn [rbind].
  2:{ right. split; [|eexists; reflexivity].
      intros (fs & H & _). discriminate. }
  destruct (mul_int_status (alloc TX_BYTES) fs numpkts) as [[H1 [tb Htb]]|[H1
    [e He]]].
  2:{ right. rewrite He. split; [|eexists; reflexivity].
      intros (fs' & H & H' & _). injection H as <-. contradiction. }
  destruct (mul_int_status (alloc RX_BYTES) fs r) as [[H2 [rb Hrb]]|[H2 [e
    He]]].
  2:{ right. rewrite Htb. cbn [rbind]. rewrite He.
      split; [|eexists; reflexivity].
      intros (fs' & H & _ & H'). injection H as <-. contradiction. }
  left. rewrite Htb. cbn [rbind]. rewrite Hrb.
  split; [|eexists; reflexivity]. exists fs. now repeat split.
Qed.

(** Runs a throughput method once each conversion, the test of the divisor
    and each product have a known outcome. *)
Ltac settle :=
  repeat (cbv [lift ret raise emit fst snd float_at index nth_error rbind
               truediv];
          cbn [app];
          rewrite ?float_of_int_cases;
          repeat match goal with
                 | H : fitsb _ = _ |- _ => rewrite H
                 | H : (_ =? 0) = _ |- _ => rewrite H
                 | H : mul_float _ _ = _ |- _ => rewrite H
                 end).

(** The continuous test, once the answers are in: it returns when its
    arithmetic goes through and raises otherwise. *)
Lemma send_cont_traffic_status (traffic_defaults : dict)
  (merge_spec : dict -> dict -> result dict) (traffic : option dict)
  (traffic_ : dict) (t framerate : Z) (ms : bool) (ins : list string)
  (vs : list Z) (rest : list string) :
  effective_traffic traffic_defaults merge_spec traffic = Ok traffic_ ->
  snd (get_user_traffic "continuous" (ContConf t framerate ms) traffic_
         throughput_stats ins) = Done vs rest ->
  (throughput_safe traffic_ t vs /\
   exists v, snd (send_cont_traffic traffic_defaults merge_spec traffic t
                    framerate ms ins) = Done v rest) \/
  (~ throughput_safe traffic_ t vs /\
   exists e, snd (send_cont_traffic traffic_defaults merge_spec traffic t
                    framerate ms ins) = Raised e rest).
Proof.
  intros Heff Hget.
  destruct (get_user_traffic "continuous" (ContConf t framerate ms) traffic_
              throughput_stats ins) as [tr st] eqn:Hrun.
  cbn [snd] in Hget. subst st.
  destruct (get_user_traffic_done _ _ _ _ _ _ _ _ Hrun) as [Hlen _].
  apply five_values in Hlen as (tx & rx & mn & mx & av & ->).
  unfold send_cont_traffic, bind. rewrite Heff.
  cbn [lift ret emit fst snd app].
  unfold throughput_stats in Hrun. rewrite Hrun.
  cbn [lift ret emit fst snd app].
  unfold throughput_safe. cbn [forallb].
  destruct (framesize_of traffic_) as [fs|e] eqn:Hfs.
  2:{ right. split; [|eexists; settle; reflexivity].
      intros (_ & _ & _ & fs & H & _). discriminate. }
  destruct (fitsb tx) eqn:Etx.
  2:{ right. split; [|eexists; settle; reflexivity].
      intros (_ & _ & H & _). discriminate. }
  destruct (fitsb t) eqn:Et.
  2:{ right. split; [|eexists; settle; reflexivity].
      intros (_ & H & _). discriminate. }
  destruct (t =? 0) eqn:Ez.
  1:{ right. split; [|eexists; settle; reflexivity].
      intros (H & _). apply Z.eqb_eq in Ez. contradiction. }
  destruct (fitsb rx) eqn:Erx.
  2:{ right. split; [|eexists; settle; reflexivity].
      intros (_ & _ & H & _). discriminate. }
  destruct (mul_float_status (double tx) fs) as [[Hop [p1 Hp1]]|[Hop [e He]]].
  2:{ right. split; [|eexists; settle; reflexivity].
      intros (_ & _ & _ & fs' & H & H'). injection H as <-. contradiction. }
  destruct (mul_float_status (double rx) fs) as [[_ [p2 Hp2]]|[Hno _]];
    [|contradiction].
  destruct (fitsb mn) eqn:Emn.
  2:{ right. split; [|eexists; settle; reflexivity].
      intros (_ & _ & H & _). discriminate. }
  destruct (fitsb mx) eqn:Emx.
  2:{ right. split; [|eexists; settle; reflexivity].
      intros (_ & _ & H & _). discriminate. }
  destruct (fitsb av) eqn:Eav.
  2:{ right. split; [|eexists; settle; reflexivity].
      intros (_ & _ & H & _). discriminate. }
  left. split; [|eexists; settle; reflexivity].
  apply Z.eqb_neq in Ez. repeat split; try assumption.
  exists fs. now split.
Qed.

(** The burst test, once the answers are in. *)
Lemma send_burst_traffic_status (can_allocate : ResultsConstants -> Z -> bool)
  (traffic_defaults : dict)
  (merge_spec : dict -> dict -> result dict) (traffic : option dict)
  (traffic_ : dict) (numpkts time framerate : Z) (ins : list string)
  (r p q : Z) (rest : list string) :
  effective_traffic traffic_defaults merge_spec traffic = Ok traffic_ ->
  snd (get_user_traffic "burst" (BurstConf numpkts time) traffic_
         burst_stats ins) = Done [r; p; q] rest ->
  (burst_safe can_allocate traffic_ numpkts r /\
   exists v, snd (send_burst_traffic can_allocate traffic_defaults
                    merge_spec traffic numpkts time framerate ins)
             = Done v rest) \/
  (~ burst_safe can_allocate traffic_ numpkts r /\
   exists e, snd (send_burst_traffic can_allocate traffic_defaults
                    merge_spec traffic numpkts time framerate ins)
             = Raised e rest).
Proof.
  intros Heff Hget.
  destruct (get_user_traffic "burst" (BurstConf numpkts time) traffic_
              burst_stats ins) as [tr st] eqn:Hrun.
  cbn [snd] in Hget. subst st.
  rewrite send_burst_traffic_of_frame.
  rewrite (send_burst_traffic_frame_outcome _ _ _ _ _ Heff _ _ framerate
             _ _ _ _ _ _ Hrun).
  destruct (burst_bytes_status can_allocate traffic_ numpkts r)
    as [[H [[tb rb] Hb]]|[H [e He]]].
  - left. split; [exact H|]. rewrite Hb. eexists. reflexivity.
  - right. split; [exact H|]. rewrite He. eexists. reflexivity.
Qed.

(** A method that runs the collector first and fails, once the answers are
    in, exactly when [safe] does not hold of them. *)
Lemma no_failure_after_answers {A B} (traffic_ : dict) (collector : run A)
  (method : run B) (safe : A -> Prop) :
  (forall tr, collector = (tr, Blocked) -> snd method = Blocked) ->
  (forall tr e rest, collector <> (tr, Raised e rest)) ->
  (forall vs rest,
      snd collector = Done vs rest ->
      (safe vs /\ exists v, snd method = Done v rest) \/
      (~ safe vs /\ exists e, snd method = Raised e rest)) ->
  no_failure (Ok traffic_) method <->
  (forall vs rest, snd collector = Done vs rest -> safe vs).
Proof.
  intros Hblocked Hraise Hdone. unfold no_failure.
  destruct collector as [tr [vs rest| |e rest]] eqn:Hc.
  - destruct (Hdone vs rest eq_refl) as [[Hs [v Hv]]|[Hs [e He]]].
    + rewrite Hv. split; [|trivial].
      intros _ vs' rest' H. cbn [snd] in H. now inversion H; subst.
    + rewrite He. split; [discriminate|].
      intros H. exfalso. exact (Hs (H vs rest eq_refl)).
  - rewrite (Hblocked tr eq_refl). split; [|trivial].
    intros _ vs rest H. discriminate.
  - exfalso. exact (Hraise tr e rest eq_refl).
Qed.

Lemma send_cont_traffic_fails_when (traffic_defaults : dict)
  (merge_spec : dict -> dict -> result dict) (traffic : option dict)
  (t framerate : Z) (ms : bool) (ins : list string) :
  no_failure (effective_traffic traffic_defaults merge_spec traffic)
    (send_cont_traffic traffic_defaults merge_spec traffic t framerate ms
       ins)
  <->
  (forall traffic_ vs rest,
      effective_traffic traffic_defaults merge_spec traffic = Ok traffic_ ->
      snd (get_user_traffic "continuous" (ContConf t framerate ms) traffic_
             throughput_stats ins) = Done vs rest ->
      throughput_safe traffic_ t vs).
Proof.
  destruct (effective_traffic traffic_defaults merge_spec traffic)
    as [traffic_|e] eqn:Heff.
  - rewrite (no_failure_after_answers traffic_
               (get_user_traffic "continuous" (ContConf t framerate ms)
                  traffic_ throughput_stats ins)
               (send_cont_traffic traffic_defaults merge_spec traffic t
                  framerate ms ins)
               (throughput_safe traffic_ t)).
    + split.
      * intros H traffic_0 vs rest Heq. injection Heq as <-. apply H.
      * intros H vs rest. now apply H.
    + intros tr H.
      now rewrite (send_cont_traffic_blocked _ _ _ _ Heff _ _ _ _ _ H).
    + intros tr e rest H.
      exact (get_user_traffic_never_raises _ _ _ _ _ _ _ _ H).
    + intros vs rest H. now apply send_cont_traffic_status.
  - unfold no_failure.
    rewrite (proj1 (proj2 (merge_error (fun _ _ => true) _ _ _ _ ins Heff))).
    split; [discriminate | reflexivity].
Qed.

(** C2, as the code has it.  The methods validate neither their arguments
    nor the configuration, and each of them fails in exactly one way: in its
    arithmetic, once the merge has succeeded and the operator has completed
    the answers.  So a run does not fail (it returns, or waits for the
    operator, or raises what the configuration merge raised) if and only if,
    in case the merge succeeds and the answers are completed,
    - for the burst test, the configuration in force has a frame size under
      [l2] that can be multiplied by [numpkts] and by the frames received:
      an integer or a boolean; a float, when these two counts are within the
      range of doubles; a string, when it can be repeated that many times;
      whatever the [time];
    - for the continuous and the throughput test, the duration is not zero,
      the duration and the five answers are within the range of doubles, and
      the frame size is an integer within that range, a boolean or a
      float. *)
Theorem methods_fail_only_by_merge (can_allocate : ResultsConstants -> Z ->
  bool)
  (traffic_defaults : dict)
  (merge_spec : dict -> dict -> result dict) (traffic : option dict)
  (ins : list string) :
  (forall numpkts time framerate,
      no_failure (effective_traffic traffic_defaults merge_spec traffic)
        (send_burst_traffic can_allocate traffic_defaults merge_spec traffic
           numpkts time framerate ins)
      <->
      (forall traffic_ r p q rest,
          effective_traffic traffic_defaults merge_spec traffic
          = Ok traffic_ ->
          snd (get_user_traffic "burst" (BurstConf numpkts time) traffic_
                 burst_stats ins) = Done [r; p; q] rest ->
          burst_safe can_allocate traffic_ numpkts r)) /\
  (forall time framerate multistream,
      no_failure (effective_traffic traffic_defaults merge_spec traffic)
        (send_cont_traffic traffic_defaults merge_spec traffic time framerate
           multistream ins)
      <->
      (forall traffic_ vs rest,
          effective_traffic traffic_defaults merge_spec traffic
          = Ok traffic_ ->
          snd (get_user_traffic "continuous"
                 (ContConf time framerate multistream) traffic_
                 throughput_stats ins) = Done vs rest ->
          throughput_safe traffic_ time vs)) /\
  (forall trials duration lossrate multistream,
      no_failure (effective_traffic traffic_defaults merge_spec traffic)
        (send_rfc2544_throughput traffic_defaults merge_spec traffic trials
           duration lossrate multistream ins)
      <->
      (forall traffic_ vs rest,
          effective_traffic traffic_defaults merge_spec traffic
          = Ok traffic_ ->
          snd (get_user_traffic "throughput"
                 (ThroughputConf trials duration lossrate multistream)
                 traffic_ throughput_stats ins) = Done vs rest ->
          throughput_safe traffic_ duration vs)).
Proof.
  split; [|split].
  - intros numpkts time framerate.
    destruct (effective_traffic traffic_defaults merge_spec traffic)
      as [traffic_|e] eqn:Heff.
    + rewrite (no_failure_after_answers traffic_
                 (get_user_traffic "burst" (BurstConf numpkts time) traffic_
                    burst_stats ins)
                 (send_burst_traffic can_allocate traffic_defaults merge_spec
                    traffic numpkts time framerate ins)
                 (fun vs => match vs with
                            | r :: _ =>
                                burst_safe can_allocate traffic_ numpkts r
                            | [] => False
                            end)).
      * split.
        -- intros H traffic_0 r p q rest Heq Hget. injection Heq as <-.
           exact (H _ _ Hget).
        -- intros H vs rest Hget.
           destruct (get_user_traffic "burst" (BurstConf numpkts time)
                       traffic_ burst_stats ins) as [tr st] eqn:Hrun.
           cbn [snd] in Hget. subst st.
           destruct (get_user_traffic_done _ _ _ _ _ _ _ _ Hrun)
             as [Hlen _].
           apply three_values in Hlen as (r & p & q & ->).
           apply (H traffic_ r p q rest eq_refl). now rewrite Hrun.
      * intros tr H. rewrite send_burst_traffic_of_frame.
        now rewrite (send_burst_traffic_frame_blocked _ _ _ _ _ Heff _ _
                       framerate _ _ H).
      * intros tr e rest H.
        exact (get_user_traffic_never_raises _ _ _ _ _ _ _ _ H).
      * intros vs rest Hget.
        destruct (get_user_traffic "burst" (BurstConf numpkts time)
                    traffic_ burst_stats ins) as [tr st] eqn:Hrun.
        cbn [snd] in Hget. subst st.
        destruct (get_user_traffic_done _ _ _ _ _ _ _ _ Hrun) as [Hlen _].
        apply three_values in Hlen as (r & p & q & ->).
        apply (send_burst_traffic_status can_allocate traffic_defaults
                 merge_spec traffic traffic_ numpkts time framerate ins
                 r p q rest Heff).
        now rewrite Hrun.
    + unfold no_failure. rewrite send_burst_traffic_of_frame.
      rewrite (proj1 (merge_error can_allocate _ _ _ _ ins Heff)).
      split; [discriminate | reflexivity].
  - intros time framerate multistream.
    apply send_cont_traffic_fails_when.
  - intros trials duration lossrate multistream.
    rewrite (throughput_as_continuous _ _ _ trials duration 0 lossrate false
               multistream ins).
    unfold no_failure at 1. rewrite snd_reword.
    fold (no_failure (effective_traffic traffic_defaults merge_spec traffic)
            (send_cont_traffic traffic_defaults merge_spec traffic duration
               0 false ins)).
    rewrite send_cont_traffic_fails_when.
    split; intros H traffic_ vs rest Heff Hget; apply (H _ _ rest Heff);
      destruct (get_user_traffic_label "throughput" "continuous"
                  (ThroughputConf trials duration lossrate multistream)
                  (ContConf duration 0 false) traffic_ throughput_stats ins)
        as [H1 H2];
      rewrite H1 in *; rewrite H2 in *; exact Hget.
Qed.

Lemma methods_fail_only_by_merge_witness :
  no_failure (effective_traffic defaults64 override_spec None)
    (send_burst_traffic allocates_1G defaults64 override_spec None 100 0 100
       scenario_burst) /\
  no_failure (effective_traffic defaults64 override_spec None)
    (send_cont_traffic defaults64 override_spec None 20 0 false
       scenario_throughput) /\
  ~ (forall traffic_ vs rest,
        effective_traffic defaults64 override_spec None = Ok traffic_ ->
        snd (get_user_traffic "throughput"
               (ThroughputConf 3 0 (S754_zero false) false) traffic_
               throughput_stats scenario_throughput) = Done vs rest ->
        throughput_safe traffic_ 0 vs).
Proof.
  destruct (methods_fail_only_by_merge allocates_1G defaults64 override_spec
              None scenario_burst) as (Hb & _ & _).
  destruct (methods_fail_only_by_merge allocates_1G defaults64 override_spec
              None scenario_throughput) as (_ & Hc & Ht).
  split; [|split].
  - apply (proj2 (Hb 100 0 100)).
    intros traffic_ r p q rest Heff Hget. injection Heff as <-.
    vm_compute in Hget. injection Hget as <- _ _ _.
    exists (PInt 64). split; [reflexivity|]. split; exact I.
  - apply (proj2 (Hc 20 0 false)).
    intros traffic_ vs rest Heff Hget. injection Heff as <-.
    vm_compute in Hget. injection Hget as <- _.
    split; [discriminate|]. split; [reflexivity|]. split; [reflexivity|].
    exists (PInt 64). split; reflexivity.
  - intros H. apply (proj2 (Ht 3 0 (S754_zero false) false)) in H.
    unfold no_failure in H. vm_compute in H. discriminate.
Defined.

(** C2, as the specification words it, does not hold: with nothing wrong in
    the merge, a duration of zero makes the continuous and throughput tests
    raise [ZeroDivisionError] once the operator has answered, and defaults
    without [l2] make every method, the burst test included, raise
    [KeyError]. *)
Lemma methods_can_fail :
  effective_traffic defaults64 override_spec None = Ok defaults64 /\
  snd (send_cont_traffic defaults64 override_spec None 0 0 false
         scenario_throughput) = Raised ZeroDivisionError [] /\
  snd (send_rfc2544_throughput defaults64 override_spec None 3 0
         (S754_zero false) false scenario_throughput)
  = Raised ZeroDivisionError [] /\
  effective_traffic [] override_spec None = Ok [] /\
  snd (send_burst_traffic allocates_1G [] override_spec None 100 20 100
    scenario_burst)
  = Raised (KeyError "l2") [] /\
  ~ no_failure (effective_traffic defaults64 override_spec None)
      (send_cont_traffic defaults64 override_spec None 0 0 false
         scenario_throughput) /\
  ~ no_failure (effective_traffic [] override_spec None)
      (send_burst_traffic allocates_1G [] override_spec None 100 20 100
        scenario_burst).
Proof.
  repeat split; try (vm_compute; reflexivity);
    unfold no_failure; intros H; vm_compute in H; discriminate.
Qed.

(** * Further properties of the module *)

(** ** Induction along the two loops of the validator *)

Section ValidatorInduction.

Variable stat_type : string.
Variable P : list string -> run Z -> Prop.
Variable Q : Z -> list string -> run Z -> Prop.

Hypothesis P_blocked : P [] ([AskStat stat_type], Blocked).
Hypothesis P_invalid : forall line rest,
  py_int line = None ->
  P rest (_get_user_traffic_stat stat_type rest) ->
  P (line :: rest)
    (emit [AskStat stat_type; SayInvalid]
          (_get_user_traffic_stat stat_type rest)).
Hypothesis P_valid : forall line n rest,
  py_int line = Some n ->
  Q n rest (confirm_loop stat_type n rest) ->
  P (line :: rest) (emit [AskStat stat_type] (confirm_loop stat_type n rest)).
Hypothesis Q_blocked : forall n, Q n [] ([AskCorrect n], Blocked).
Hypothesis Q_accept : forall n answer rest,
  accepts (lower answer) = true ->
  Q n (answer :: rest) ([AskCorrect n], Done n rest).
Hypothesis Q_reject : forall n answer rest,
  accepts (lower answer) = false -> rejects (lower answer) = true ->
  P rest (_get_user_traffic_stat stat_type rest) ->
  Q n (answer :: rest)
    (emit [AskCorrect n] (_get_user_traffic_stat stat_type rest)).
Hypothesis Q_other : forall n answer rest,
  accepts (lower answer) = false -> rejects (lower answer) = false ->
  Q n rest (confirm_loop stat_type n rest) ->
  Q n (answer :: rest)
    (emit [AskCorrect n; SayYesNo] (confirm_loop stat_type n rest)).

Lemma validator_loops_ind_aux (k : nat) :
  forall ins, (List.length ins <= k)%nat ->
    P ins (_get_user_traffic_stat stat_type ins) /\
    (forall n, Q n ins (confirm_loop stat_type n ins)).
Proof.
  induction k as [|k IH]; intros ins Hlen.
  - destruct ins; [|simpl in Hlen; lia]. split; [exact P_blocked|].
    intros n. apply Q_blocked.
  - destruct ins as [|a ins].
    { split; [exact P_blocked | intros n; apply Q_blocked]. }
    simpl in Hlen. assert (Hk : (List.length ins <= k)%nat) by lia.
    destruct (IH ins Hk) as [IHo IHi]. split.
    + destruct (py_int a) as [n|] eqn:Hp.
      * rewrite (stat_valid _ _ _ _ Hp). now apply P_valid.
      * rewrite (stat_invalid _ _ _ Hp). now apply P_invalid.
    + intros n. destruct (accepts (lower a)) eqn:Ha.
      * rewrite (confirm_accept _ _ _ _ Ha). now apply Q_accept.
      * destruct (rejects (lower a)) eqn:Hr.
        -- rewrite (confirm_reject _ _ _ _ Ha Hr). now apply Q_reject.
        -- rewrite (confirm_other _ _ _ _ Ha Hr). now apply Q_other.
Qed.

Lemma validator_loops_ind (ins : list string) :
  P ins (_get_user_traffic_stat stat_type ins) /\
  (forall n, Q n ins (confirm_loop stat_type n ins)).
Proof. exact (validator_loops_ind_aux (List.length ins) ins (le_n _)). Qed.

End ValidatorInduction.

(** ** The validator on arbitrary lines *)

Lemma inputs_app (t1 t2 : list event) :
  inputs (t1 ++ t2) = (inputs t1 + inputs t2)%nat.
Proof.
  induction t1 as [|[] t1 IH]; simpl; auto.
Qed.

Lemma one_line_per_input_emit {A} (ins : list string) (r : run A)
  (t : list event) (a : string) :
  inputs t = 1%nat ->
  one_line_per_input ins r -> one_line_per_input (a :: ins) (emit t r).
Proof.
  unfold one_line_per_input. destruct r as [tr [v rest| |e rest]]; simpl;
    rewrite ?inputs_app; intros Ht H; simpl; lia.
Qed.

Lemma stat_one_line_per_input (stat_type : string) (ins : list string) :
  one_line_per_input ins (_get_user_traffic_stat stat_type ins).
Proof.
  apply (validator_loops_ind stat_type
           (fun ins r => one_line_per_input ins r)
           (fun _ ins r => one_line_per_input ins r)); intros;
    try (now apply one_line_per_input_emit);
    unfold one_line_per_input; simpl; lia.
Qed.

(** X1.  Whatever the operator types, [_get_user_traffic_stat] never raises:
    it returns or it is still waiting.  It keeps waiting as long as no line
    reads as an integer, printing the complaint and the integer prompt once
    per line, and as long as no line is an accepting answer. *)
Theorem validator_waits_for_an_answer (stat_type : string)
  (ins : list string) :
  (forall tr e rest,
      _get_user_traffic_stat stat_type ins <> (tr, Raised e rest)) /\
  (Forall (fun line => py_int line = None) ins ->
   _get_user_traffic_stat stat_type ins
   = (flat_map (fun _ => [AskStat stat_type; SayInvalid]) ins
        ++ [AskStat stat_type], Blocked)) /\
  (Forall (fun line => accepts (lower line) = false) ins ->
   snd (_get_user_traffic_stat stat_type ins) = Blocked).
Proof.
  split; [|split].
  - exact (proj1 (stat_never_raises stat_type _ ins (le_n _))).
  - induction 1 as [|line rest Hl _ IH]; [reflexivity|].
    rewrite (stat_invalid _ _ _ Hl), IH. reflexivity.
  - intros HF.
    destruct (_get_user_traffic_stat stat_type ins)
      as [tr [n rest| |e rest]] eqn:E; [|reflexivity|].
    + apply stat_answered in E
        as (pre & line & mid & answer & -> & _ & _ & Ha).
      rewrite Forall_forall in HF.
      rewrite HF in Ha; [discriminate|].
      apply in_or_app. right. right. apply in_or_app. right. now left.
    + exfalso.
      exact (proj1 (stat_never_raises stat_type _ ins (le_n _)) _ _ _ E).
Qed.

Lemma validator_waits_for_an_answer_witness :
  _get_user_traffic_stat "frames rx" ["ten"; "10.5"; "0x10"]
  = ([AskStat "frames rx"; SayInvalid; AskStat "frames rx"; SayInvalid;
      AskStat "frames rx"; SayInvalid; AskStat "frames rx"], Blocked) /\
  snd (_get_user_traffic_stat "frames rx" ["12"; "no"; "13"; "nope"; "n"; "14"])
  = Blocked.
Proof.
  split.
  - apply (proj1 (proj2 (validator_waits_for_an_answer "frames rx"
                           ["ten"; "10.5"; "0x10"]))).
    repeat constructor.
  - apply (proj2 (proj2 (validator_waits_for_an_answer "frames rx"
                           ["12"; "no"; "13"; "nope"; "n"; "14"]))).
    repeat constructor.
Defined.

(** X2.  Every line the operator types answers exactly one call of
    [input]: when [_get_user_traffic_stat] returns, the prompts it printed
    are as many as the lines it took, and when it waits, it has printed one
    prompt more than there were lines.  The value returned is the one shown
    in the last prompt printed. *)
Theorem validator_prompts_match_lines (stat_type : string)
  (ins : list string) :
  one_line_per_input ins (_get_user_traffic_stat stat_type ins) /\
  (forall tr n rest,
      _get_user_traffic_stat stat_type ins = (tr, Done n rest) ->
      List.length ins = (inputs tr + List.length rest)%nat /\
      exists tr', tr = tr' ++ [AskCorrect n]).
Proof.
  split; [apply stat_one_line_per_input|].
  intros tr n rest H. split.
  - pose proof (stat_one_line_per_input stat_type ins) as Hc.
    unfold one_line_per_input in Hc. now rewrite H in Hc.
  - revert tr n rest H.
    apply (proj1 (validator_loops_ind stat_type
             (fun _ r => forall tr n rest, r = (tr, Done n rest) ->
                         exists tr', tr = tr' ++ [AskCorrect n])
             (fun _ _ r => forall tr n rest, r = (tr, Done n rest) ->
                           exists tr', tr = tr' ++ [AskCorrect n])
             ltac:(discriminate)
             ltac:(intros line rest _ IH tr n rest' H;
                   apply emit_inv in H as (t & H & ->);
                   destruct (IH _ _ _ H) as [t' ->];
                   eexists; rewrite app_assoc; reflexivity)
             ltac:(intros line m rest _ IH tr n rest' H;
                   apply emit_inv in H as (t & H & ->);
                   destruct (IH _ _ _ H) as [t' ->];
                   eexists; rewrite app_assoc; reflexivity)
             ltac:(discriminate)
             ltac:(intros m answer rest _ tr n rest' H;
                   inversion H; subst; now exists [])
             ltac:(intros m answer rest _ _ IH tr n rest' H;
                   apply emit_inv in H as (t & H & ->);
                   destruct (IH _ _ _ H) as [t' ->];
                   eexists; rewrite app_assoc; reflexivity)
             ltac:(intros m answer rest _ _ IH tr n rest' H;
                   apply emit_inv in H as (t & H & ->);
                   destruct (IH _ _ _ H) as [t' ->];
                   eexists; rewrite app_assoc; reflexivity)
             ins)).
Qed.

Lemma validator_prompts_match_lines_witness :
  List.length ["x"; "7"; "what"; "n"; "8"; "Y"; "next"]
  = (inputs [AskStat "seq"; SayInvalid; AskStat "seq"; AskCorrect 7;
             SayYesNo; AskCorrect 7; AskStat "seq"; AskCorrect 8]
     + List.length ["next"])%nat /\
  exists tr',
    [AskStat "seq"; SayInvalid; AskStat "seq"; AskCorrect 7; SayYesNo;
     AskCorrect 7; AskStat "seq"; AskCorrect 8] = tr' ++ [AskCorrect 8].
Proof.
  apply (proj2 (validator_prompts_match_lines "seq"
                  ["x"; "7"; "what"; "n"; "8"; "Y"; "next"])
           _ 8 ["next"]).
  reflexivity.
Defined.

(** ** No look-ahead *)

Lemma reads_ret {A} (a : A) : reads_only_consumed (ret a).
Proof.
  intros ins tr b rest H. inversion H; subst. exists []. now split.
Qed.

Lemma reads_lift {A} (r : result A) : reads_only_consumed (lift r).
Proof.
  destruct r as [a|e]; [apply reads_ret|].
  intros ins tr b rest H. discriminate.
Qed.

Lemma reads_print (e : event) : reads_only_consumed (print e).
Proof.
  intros ins tr b rest H. inversion H; subst. exists []. now split.
Qed.

Lemma reads_bind {A B} (m : io A) (k : A -> io B) :
  reads_only_consumed m -> (forall a, reads_only_consumed (k a)) ->
  reads_only_consumed (bind m k).
Proof.
  intros Hm Hk ins tr b rest H.
  apply bind_inv in H as (tr1 & a & mid & tr2 & H1 & H2 & ->).
  destruct (Hm _ _ _ _ H1) as (u1 & -> & Hu1).
  destruct (Hk a _ _ _ _ H2) as (u2 & -> & Hu2).
  exists (u1 ++ u2). split; [now rewrite app_assoc|].
  intros rest'. rewrite <- app_assoc.
  rewrite (bind_done _ _ _ _ _ _ (Hu1 (u2 ++ rest'))), Hu2.
  reflexivity.
Qed.

Ltac reads_step stat_type eqn :=
  let tr := fresh "tr" in
  let n := fresh "n" in
  let rest := fresh "rest" in
  let H := fresh "H" in
  let t := fresh "t" in
  let u := fresh "u" in
  let Hu := fresh "Hu" in
  cbv beta in *;
  match goal with
  | IH : forall tr n rest, _ = (tr, Done n rest) -> _ |- _ =>
      intros tr n rest H;
      apply emit_inv in H as (t & H & ->);
      destruct (IH _ _ _ H) as (u & -> & Hu);
      eexists (_ :: u); split; [reflexivity|];
      intros rest'; cbn [app]; rewrite eqn by assumption;
      rewrite Hu; reflexivity
  end.

Lemma stat_reads_only_consumed (stat_type : string) :
  reads_only_consumed (_get_user_traffic_stat stat_type).
Proof.
  intros ins.
  apply (proj1 (validator_loops_ind stat_type
           (fun ins r => forall tr n rest, r = (tr, Done n rest) ->
              exists used, ins = used ++ rest /\
                forall rest', _get_user_traffic_stat stat_type (used ++ rest')
                              = (tr, Done n rest'))
           (fun m ins r => forall tr n rest, r = (tr, Done n rest) ->
              exists used, ins = used ++ rest /\
                forall rest', confirm_loop stat_type m (used ++ rest')
                              = (tr, Done n rest'))
           ltac:(discriminate)
           ltac:(intros line rest0 Hp IH;
                 reads_step stat_type (stat_invalid stat_type))
           ltac:(intros line m rest0 Hp IH;
                 reads_step stat_type (stat_valid stat_type line m))
           ltac:(discriminate)
           ltac:(intros m answer rest0 Ha tr n rest H; inversion H; subst;
                 exists [answer]; split; [reflexivity|];
                 intros rest'; cbn [app];
                 now rewrite (confirm_accept _ _ _ _ Ha))
           ltac:(intros m answer rest0 Ha Hr IH;
                 reads_step stat_type (confirm_reject stat_type m answer))
           ltac:(intros m answer rest0 Ha Hr IH;
                 reads_step stat_type (confirm_other stat_type m answer))
           ins)).
Qed.

Lemma collect_reads_only_consumed (stats : list string) :
  forall acc, reads_only_consumed (collect stats acc).
Proof.
  induction stats as [|stat more IH]; intros acc; cbn [collect].
  - apply reads_ret.
  - apply reads_bind; [apply stat_reads_only_consumed|].
    intros a. apply IH.
Qed.

Lemma get_user_traffic_reads_only_consumed (traffic_type : string)
  (conf : stream_conf) (flow : dict) (stats : list string) :
  reads_only_consumed (get_user_traffic traffic_type conf flow stats).
Proof.
  unfold get_user_traffic. apply reads_bind; [apply reads_print|].
  intros _. apply collect_reads_only_consumed.
Qed.

Ltac reads_method :=
  repeat first
    [ apply reads_ret
    | apply reads_lift
    | apply get_user_traffic_reads_only_consumed
    | apply reads_bind
    | intro
    | progress cbv zeta ].

(** X3.  Neither the validator, nor the collector, nor any of the three
    test methods looks at a line beyond those it takes: when one of them
    returns, the lines split into the ones it used and the rest, and with any
    other rest behind the same used lines it prints the same trace and
    returns the same value, leaving that rest. *)
Theorem no_look_ahead (can_allocate : ResultsConstants -> Z -> bool)
  (traffic_defaults : dict)
  (merge_spec : dict -> dict -> result dict) (traffic : option dict) :
  (forall stat_type, reads_only_consumed (_get_user_traffic_stat stat_type)) /\
  (forall traffic_type conf flow stats,
      reads_only_consumed (get_user_traffic traffic_type conf flow stats)) /\
  (forall numpkts time framerate,
      reads_only_consumed
        (send_burst_traffic can_allocate traffic_defaults merge_spec traffic
          numpkts time
           framerate)) /\
  (forall time framerate multistream,
      reads_only_consumed
        (send_cont_traffic traffic_defaults merge_spec traffic time framerate
           multistream)) /\
  (forall trials duration lossrate multistream,
      reads_only_consumed
        (send_rfc2544_throughput traffic_defaults merge_spec traffic trials
           duration lossrate multistream)).
Proof.
  split; [exact stat_reads_only_consumed|].
  split; [exact get_user_traffic_reads_only_consumed|].
  split; [|split]; intros.
  - unfold send_burst_traffic, send_burst_traffic_frame. reads_method.
  - unfold send_cont_traffic. reads_method.
  - unfold send_rfc2544_throughput. reads_method.
Qed.

Lemma no_look_ahead_witness :
  exists used,
    scenario_burst ++ scenario_throughput = used ++ scenario_throughput /\
    forall rest',
      send_burst_traffic allocates_1G defaults64 override_spec None 100 20 100
        (used ++ rest')
      = ([Announce "burst" (BurstConf 100 20) defaults64;
          AskStat "frames rx"; AskCorrect 90;
          AskStat "payload errors"; AskCorrect 2;
          AskStat "sequence errors"; AskCorrect 1],
         Done (mkBurstResult 90 2 1) rest').
Proof.
  apply (proj1 (proj2 (proj2 (no_look_ahead allocates_1G defaults64
    override_spec None)))
           100 20 100 (scenario_burst ++ scenario_throughput)).
  reflexivity.
Defined.

(** ** The collector on arbitrary lines *)

Lemma int_prompts_app (t1 t2 : list event) :
  int_prompts (t1 ++ t2) = int_prompts t1 ++ int_prompts t2.
Proof.
  induction t1 as [|[] t1 IH]; simpl; auto. now rewrite IH.
Qed.

Lemma announcements_app (t1 t2 : list event) :
  announcements (t1 ++ t2) = (announcements t1 + announcements t2)%nat.
Proof.
  induction t1 as [|[] t1 IH]; simpl; auto.
Qed.

Lemma stat_announcements (stat_type : string) (ins : list string) :
  announcements (fst (_get_user_traffic_stat stat_type ins)) = O.
Proof.
  apply (validator_loops_ind stat_type
           (fun _ r => announcements (fst r) = O)
           (fun _ _ r => announcements (fst r) = O)); intros;
    rewrite ?fst_emit, ?announcements_app; simpl; auto.
Qed.

Lemma stat_int_prompts (stat_type : string) (ins : list string)
  (tr : list event) (n : Z) (rest : list string) :
  _get_user_traffic_stat stat_type ins = (tr, Done n rest) ->
  exists k, int_prompts tr = repeat stat_type (S k).
Proof.
  revert tr n rest.
  apply (proj1 (validator_loops_ind stat_type
           (fun _ r => forall tr n rest, r = (tr, Done n rest) ->
                       exists k, int_prompts tr = repeat stat_type (S k))
           (fun _ _ r => forall tr n rest, r = (tr, Done n rest) ->
                         exists k, int_prompts tr = repeat stat_type k)
           ltac:(discriminate)
           ltac:(intros line rest0 _ IH tr n rest H;
                 apply emit_inv in H as (t & H & ->);
                 destruct (IH _ _ _ H) as [k Hk];
                 exists (S k); rewrite int_prompts_app, Hk; reflexivity)
           ltac:(intros line m rest0 _ IH tr n rest H;
                 apply emit_inv in H as (t & H & ->);
                 destruct (IH _ _ _ H) as [k Hk];
                 exists k; rewrite int_prompts_app, Hk; reflexivity)
           ltac:(discriminate)
           ltac:(intros m answer rest0 _ tr n rest H; inversion H; subst;
                 now exists O)
           ltac:(intros m answer rest0 _ _ IH tr n rest H;
                 apply emit_inv in H as (t & H & ->);
                 destruct (IH _ _ _ H) as [k Hk];
                 exists (S k); rewrite int_prompts_app, Hk; reflexivity)
           ltac:(intros m answer rest0 _ _ IH tr n rest H;
                 apply emit_inv in H as (t & H & ->);
                 destruct (IH _ _ _ H) as [k Hk];
                 exists k; rewrite int_prompts_app, Hk; reflexivity)
           ins)).
Qed.

Lemma collect_int_prompts (stats : list string) :
  forall acc ins tr vs rest,
    collect stats acc ins = (tr, Done vs rest) ->
    repeated_in_order stats (int_prompts tr).
Proof.
  induction stats as [|stat more IH]; intros acc ins tr vs rest H.
  - inversion H; subst. exists []. now split.
  - cbn [collect] in H.
    apply bind_inv in H as (tr1 & a & mid & tr2 & Hs & Hc & ->).
    apply stat_int_prompts in Hs as [k Hk].
    apply IH in Hc as (times & Hlen & Ht).
    exists (k :: times). split; [simpl; now rewrite Hlen|].
    rewrite int_prompts_app, Hk, Ht. reflexivity.
Qed.

Lemma collect_announcements (stats : list string) :
  forall acc ins, announcements (fst (collect stats acc ins)) = O.
Proof.
  induction stats as [|stat more IH]; intros acc ins; [reflexivity|].
  cbn [collect]. unfold bind.
  pose proof (stat_announcements stat ins) as Hs.
  destruct (_get_user_traffic_stat stat ins) as [tr1 [a mid| |e mid]];
    simpl in *; auto.
  rewrite announcements_app, Hs. apply IH.
Qed.

Lemma collect_one_line_per_input (stats : list string) :
  forall acc ins, one_line_per_input ins (collect stats acc ins).
Proof.
  induction stats as [|stat more IH]; intros acc ins.
  - unfold one_line_per_input. simpl. lia.
  - cbn [collect]. unfold bind.
    pose proof (stat_one_line_per_input stat ins) as Hs.
    destruct (_get_user_traffic_stat stat ins) as [tr1 [a mid| |e mid]];
      unfold one_line_per_input in *; simpl in *; auto.
    specialize (IH (acc ++ [a]) mid).
    destruct (collect more (acc ++ [a]) mid) as [tr2 [vs rest| |e rest]];
      simpl in *; rewrite ?inputs_app; lia.
Qed.

(** X4.  Whatever the operator types, retries included, [get_user_traffic]
    prints its request exactly once and never raises, and every line typed
    answers exactly one prompt.  When it returns, it returns as many values
    as statistics were asked for, each value read from a line the operator
    typed, and the integer prompts name the statistics in the order of the
    list, each at least once. *)
Theorem collector_invariants (traffic_type : string) (conf : stream_conf)
  (flow : dict) (stats : list string) (ins : list string) :
  let r := get_user_traffic traffic_type conf flow stats ins in
  announcements (fst r) = 1%nat /\
  one_line_per_input ins r /\
  (forall tr vs rest,
      r = (tr, Done vs rest) ->
      List.length vs = List.length stats /\
      Forall (entered ins) vs /\
      repeated_in_order stats (int_prompts tr)).
Proof.
  intros r. subst r.
  destruct (get_user_traffic_label traffic_type traffic_type conf conf flow
              stats ins) as [Hg _].
  split; [|split].
  - rewrite Hg. cbn [fst announcements]. now rewrite collect_announcements.
  - rewrite Hg. pose proof (collect_one_line_per_input stats [] ins) as Hc.
    unfold one_line_per_input in *. cbn [fst snd inputs]. exact Hc.
  - intros tr vs rest H.
    destruct (get_user_traffic_done _ _ _ _ _ _ _ _ H) as [Hlen HF].
    repeat split; try assumption.
    rewrite Hg in H. inversion H as [[Htr Hst]].
    destruct (collect stats [] ins) as [tr0 st0] eqn:Hc.
    cbn [fst snd] in *. subst st0.
    cbn [int_prompts]. exact (collect_int_prompts _ _ _ _ _ _ Hc).
Qed.

Lemma collector_invariants_witness :
  List.length [7; 3] = List.length ["frames rx"; "payload errors"] /\
  Forall (entered ["seven"; "7"; "maybe"; "yes"; "2"; "no"; "3"; ""]) [7; 3] /\
  repeated_in_order ["frames rx"; "payload errors"]
    ["frames rx"; "frames rx"; "payload errors"; "payload errors"].
Proof.
  apply (proj2 (proj2 (collector_invariants "burst" (BurstConf 100 20) []
                         ["frames rx"; "payload errors"]
                         ["seven"; "7"; "maybe"; "yes"; "2"; "no"; "3"; ""]))
           [Announce "burst" (BurstConf 100 20) [];
            AskStat "frames rx"; SayInvalid; AskStat "frames rx";
            AskCorrect 7; SayYesNo; AskCorrect 7;
            AskStat "payload errors"; AskCorrect 2;
            AskStat "payload errors"; AskCorrect 3]
           [7; 3] []).
  reflexivity.
Defined.

Lemma collect_acc (stats : list string) :
  forall acc ins,
    collect stats acc ins
    = match collect stats [] ins with
      | (tr, Done vs rest) => (tr, Done (acc ++ vs) rest)
      | (tr, Blocked) => (tr, Blocked)
      | (tr, Raised e rest) => (tr, Raised e rest)
      end.
Proof.
  induction stats as [|stat more IH]; intros acc ins.
  - simpl. now rewrite app_nil_r.
  - cbn [collect]. unfold bind.
    destruct (_get_user_traffic_stat stat ins) as [tr1 [a mid| |e mid]];
      try reflexivity.
    rewrite (IH (acc ++ [a]) mid), (IH ([] ++ [a]) mid).
    destruct (collect more [] mid) as [tr2 [vs rest| |e rest]];
      unfold emit; simpl; try reflexivity.
    now rewrite <- app_assoc.
Qed.

Lemma collect_app (s1 s2 : list string) :
  forall acc ins,
    collect (s1 ++ s2) acc ins = bind (collect s1 acc) (collect s2) ins.
Proof.
  induction s1 as [|stat more IH]; intros acc ins.
  - unfold bind, ret. simpl. now rewrite emit_nil.
  - cbn [app collect]. unfold bind at 1 2 3.
    destruct (_get_user_traffic_stat stat ins) as [tr1 [a mid| |e mid]];
      try reflexivity.
    rewrite IH. unfold bind.
    destruct (collect more (acc ++ [a]) mid) as [tr2 [vs rest| |e rest]];
      try reflexivity.
    now rewrite emit_emit.
Qed.

(** X5.  Asking for two lists of statistics one after the other is asking
    for their concatenation: if [get_user_traffic] returns [v1] for the
    first list and, on the lines left, [v2] for the second, then for the
    concatenated list it returns [v1 ++ v2] after the same dialogue, the
    second request to send traffic not being printed; and if it is still
    waiting on the first list, it is still waiting, at the same prompt, on
    the concatenated one. *)
Theorem collector_composes (traffic_type : string) (conf : stream_conf)
  (flow : dict) (s1 s2 : list string) (ins : list string)
  (tr1 : list event) :
  (forall v1 mid traffic_type2 conf2 flow2 tr2 v2 rest,
      get_user_traffic traffic_type conf flow s1 ins = (tr1, Done v1 mid) ->
      get_user_traffic traffic_type2 conf2 flow2 s2 mid
      = (tr2, Done v2 rest) ->
      get_user_traffic traffic_type conf flow (s1 ++ s2) ins
      = (tr1 ++ tl tr2, Done (v1 ++ v2) rest)) /\
  (get_user_traffic traffic_type conf flow s1 ins = (tr1, Blocked) ->
   get_user_traffic traffic_type conf flow (s1 ++ s2) ins = (tr1, Blocked)).
Proof.
  destruct (get_user_traffic_label traffic_type traffic_type conf conf flow
              s1 ins) as [H1 _].
  destruct (get_user_traffic_label traffic_type traffic_type conf conf flow
              (s1 ++ s2) ins) as [H12 _].
  rewrite H1, H12, collect_app. unfold bind. split.
  - intros v1 mid traffic_type2 conf2 flow2 tr2 v2 rest Ha Hb.
    destruct (get_user_traffic_label traffic_type2 traffic_type2 conf2 conf2
                flow2 s2 mid) as [H2 _].
    rewrite H2 in Hb.
    destruct (collect s1 [] ins) as [t1 [w1 m1| |e1 m1]];
      inversion Ha; subst.
    rewrite collect_acc.
    destruct (collect s2 [] mid) as [t2 [w2 m2| |e2 m2]];
      inversion Hb; subst.
    reflexivity.
  - intros Ha.
    destruct (collect s1 [] ins) as [t1 [w1 m1| |e1 m1]];
      inversion Ha; subst. reflexivity.
Qed.

Lemma collector_composes_witness :
  get_user_traffic "continuous" (ContConf 20 0 false) []
    (["frames tx"; "frames rx"] ++ ["min latency"])
    ["2000"; ""; "1900"; "no"; "1901"; "y"; "10"; ""; "50"]
  = ([Announce "continuous" (ContConf 20 0 false) [];
      AskStat "frames tx"; AskCorrect 2000;
      AskStat "frames rx"; AskCorrect 1900;
      AskStat "frames rx"; AskCorrect 1901]
       ++ tl [Announce "latency" (BurstConf 0 0) [];
              AskStat "min latency"; AskCorrect 10],
     Done ([2000; 1901] ++ [10]) ["50"]).
Proof.
  apply (proj1 (collector_composes "continuous" (ContConf 20 0 false) []
                  ["frames tx"; "frames rx"] ["min latency"]
                  ["2000"; ""; "1900"; "no"; "1901"; "y"; "10"; ""; "50"] _)
           [2000; 1901] ["10"; ""; "50"] "latency" (BurstConf 0 0) []);
    reflexivity.
Defined.

(** ** The test methods and the configuration *)

(** X6.  The merge is consulted only for an override that is neither absent
    nor empty; and when it raises, each of the three methods raises the same
    exception at once: nothing has been printed and no line has been
    read. *)
Theorem merge_failure_precedes_console (can_allocate : ResultsConstants -> Z ->
  bool)
  (traffic_defaults : dict)
  (merge_spec : dict -> dict -> result dict) (traffic : option dict)
  (ins : list string) :
  effective_traffic traffic_defaults merge_spec None = Ok traffic_defaults /\
  effective_traffic traffic_defaults merge_spec (Some [])
  = Ok traffic_defaults /\
  (forall e,
      effective_traffic traffic_defaults merge_spec traffic = Err e ->
      (exists t, traffic = Some t /\ t <> [] /\
                 merge_spec traffic_defaults t = Err e) /\
      (forall numpkts time framerate,
          send_burst_traffic can_allocate traffic_defaults merge_spec traffic
            numpkts time
            framerate ins = ([], Raised e ins)) /\
      (forall time framerate multistream,
          send_cont_traffic traffic_defaults merge_spec traffic time framerate
            multistream ins = ([], Raised e ins)) /\
      (forall trials duration lossrate multistream,
          send_rfc2544_throughput traffic_defaults merge_spec traffic trials
            duration lossrate multistream ins = ([], Raised e ins))).
Proof.
  split; [reflexivity|]. split; [reflexivity|].
  intros e He. split.
  - unfold effective_traffic in He. destruct traffic as [[|kv t]|];
      try discriminate.
    exists (kv :: t). repeat split; [discriminate | exact He].
  - destruct (merge_error can_allocate _ _ _ _ ins He) as (Hb & Hc & Hr).
    repeat split; try assumption.
    intros numpkts time framerate.
    now rewrite send_burst_traffic_of_frame, Hb.
Qed.

Lemma merge_failure_precedes_console_witness :
  send_cont_traffic defaults64 refuse_spec (Some TRAFFIC) 20 0 false
    scenario_throughput
  = ([], Raised (MergeError "refused") scenario_throughput).
Proof.
  apply (proj2 (proj2 (merge_failure_precedes_console allocates_1G defaults64
    refuse_spec
                         (Some TRAFFIC) scenario_throughput))
           (MergeError "refused") eq_refl).
Defined.

Section ConfigurationErrors.

Variable can_allocate : ResultsConstants -> Z -> bool.
Variable traffic_defaults : dict.
Variable merge_spec : dict -> dict -> result dict.
Variable traffic : option dict.
Variable traffic_ : dict.
Hypothesis Heff :
  effective_traffic traffic_defaults merge_spec traffic = Ok traffic_.

Lemma send_cont_traffic_late_error (e : exn) (t framerate : Z) (ms : bool)
  (ins : list string) :
  framesize_of traffic_ = Err e ->
  send_cont_traffic traffic_defaults merge_spec traffic t framerate ms ins
  = raises_after
      (get_user_traffic "continuous" (ContConf t framerate ms) traffic_
         throughput_stats ins) e.
Proof.
  intros Hfs. unfold send_cont_traffic, bind, raises_after, throughput_stats.
  rewrite Heff. cbv [lift ret].
  destruct (get_user_traffic _ _ _ _ ins) as [tr [vs rest| |e' rest]];
    try reflexivity.
  rewrite Hfs. crunch. reflexivity.
Qed.

Lemma send_burst_traffic_late_error (e : exn) (numpkts time framerate : Z)
  (ins : list string) :
  framesize_of traffic_ = Err e ->
  send_burst_traffic can_allocate traffic_defaults merge_spec traffic numpkts
    time
    framerate ins
  = raises_after
      (get_user_traffic "burst" (BurstConf numpkts time) traffic_ burst_stats
         ins) e.
Proof.
  intros Hfs. rewrite send_burst_traffic_of_frame.
  destruct (get_user_traffic "burst" (BurstConf numpkts time) traffic_
              burst_stats ins) as [tr [vs rest| |e' rest]] eqn:Hget.
  - destruct (get_user_traffic_done _ _ _ _ _ _ _ _ Hget) as [Hlen _].
    apply three_values in Hlen as (r & p & q & ->).
    rewrite (send_burst_traffic_frame_outcome _ _ _ _ _ Heff _ _ framerate
               _ _ _ _ _ _ Hget).
    unfold burst_bytes. rewrite Hfs. reflexivity.
  - now rewrite (send_burst_traffic_frame_blocked _ _ _ _ _ Heff _ _ framerate
                   _ _ Hget).
  - exfalso. exact (get_user_traffic_never_raises _ _ _ _ _ _ _ _ Hget).
Qed.

End ConfigurationErrors.

Lemma framesize_of_errors (traffic_ : dict) :
  (lookup "l2" traffic_ = None ->
   framesize_of traffic_ = Err (KeyError "l2")) /\
  (forall d, lookup "l2" traffic_ = Some (PDict d) ->
             lookup "framesize" d = None ->
             framesize_of traffic_ = Err (KeyError "framesize")) /\
  (forall v, lookup "l2" traffic_ = Some v ->
             (forall d, v <> PDict d) ->
             framesize_of traffic_ = Err TypeError).
Proof.
  unfold framesize_of, getitem, rbind. repeat split.
  - intros ->. reflexivity.
  - intros d -> ->. reflexivity.
  - intros v -> Hv. destruct v; try reflexivity. now destruct (Hv d).
Qed.

Lemma reword_raises_after {A} (ty : string) (c c' : stream_conf)
  (flow : dict) (stats : list string) (ins : list string) (e : exn) :
  reword ty c
    (raises_after (A := A)
       (get_user_traffic "continuous" c' flow stats ins) e)
  = raises_after (get_user_traffic ty c flow stats ins) e.
Proof.
  destruct (get_user_traffic_label "continuous" ty c' c flow stats ins)
    as [H1 H2].
  rewrite H1, H2. reflexivity.
Qed.

(** X7.  A configuration without [l2], without [framesize] under [l2], or
    whose [l2] is no dictionary is found out late: every method first
    prints its request and makes the operator answer all its questions, and
    only then raises [KeyError] (or [TypeError]); while the operator has not
    finished, the method is waiting, not failing.  This holds of the burst
    test too, whose dictionary is thrown away. *)
Theorem configuration_errors_come_late (can_allocate : ResultsConstants -> Z ->
  bool)
  (traffic_defaults : dict)
  (merge_spec : dict -> dict -> result dict) (traffic : option dict)
  (traffic_ : dict) (e : exn) (ins : list string) :
  effective_traffic traffic_defaults merge_spec traffic = Ok traffic_ ->
  framesize_of traffic_ = Err e ->
  (forall numpkts time framerate,
      send_burst_traffic can_allocate traffic_defaults merge_spec traffic
        numpkts time
        framerate ins
      = raises_after
          (get_user_traffic "burst" (BurstConf numpkts time) traffic_
             burst_stats ins) e) /\
  (forall time framerate multistream,
      send_cont_traffic traffic_defaults merge_spec traffic time framerate
        multistream ins
      = raises_after
          (get_user_traffic "continuous"
             (ContConf time framerate multistream) traffic_ throughput_stats
             ins) e) /\
  (forall trials duration lossrate multistream,
      send_rfc2544_throughput traffic_defaults merge_spec traffic trials
        duration lossrate multistream ins
      = raises_after
          (get_user_traffic "throughput"
             (ThroughputConf trials duration lossrate multistream) traffic_
             throughput_stats ins) e) /\
  (lookup "l2" traffic_ = None -> e = KeyError "l2") /\
  (forall d, lookup "l2" traffic_ = Some (PDict d) ->
             lookup "framesize" d = None -> e = KeyError "framesize") /\
  (forall v, lookup "l2" traffic_ = Some v -> (forall d, v <> PDict d) ->
             e = TypeError).
Proof.
  intros Heff Hfs.
  destruct (framesize_of_errors traffic_) as (E1 & E2 & E3).
  split; [|split; [|split; [|split; [|split]]]].
  - intros. now apply send_burst_traffic_late_error.
  - intros. now apply send_cont_traffic_late_error.
  - intros trials duration lossrate multistream.
    rewrite (throughput_as_continuous _ _ _ trials duration 0 lossrate false
               multistream ins).
    rewrite (send_cont_traffic_late_error _ _ _ _ Heff e _ _ _ _ Hfs).
    apply reword_raises_after.
  - intros H. rewrite (E1 H) in Hfs. congruence.
  - intros d H1 H2. rewrite (E2 d H1 H2) in Hfs. congruence.
  - intros v H1 H2. rewrite (E3 v H1 H2) in Hfs. congruence.
Qed.

Lemma configuration_errors_come_late_witness :
  send_burst_traffic allocates_1G [("l3", PDict [("proto", PStr "tcp")])]
    override_spec
    None 100 20 100 scenario_burst
  = ([Announce "burst" (BurstConf 100 20)
        [("l3", PDict [("proto", PStr "tcp")])];
      AskStat "frames rx"; AskCorrect 90;
      AskStat "payload errors"; AskCorrect 2;
      AskStat "sequence errors"; AskCorrect 1],
     Raised (KeyError "l2") []) /\
  send_cont_traffic [("l2", PDict [("srcmac", PStr "00:00:00:00:00:00")])]
    override_spec None 20 0 false ["2000"; ""; "1900"]
  = ([Announce "continuous" (ContConf 20 0 false)
        [("l2", PDict [("srcmac", PStr "00:00:00:00:00:00")])];
      AskStat "frames tx"; AskCorrect 2000;
      AskStat "frames rx"; AskCorrect 1900], Blocked).
Proof.
  split.
  - apply (proj1 (configuration_errors_come_late
                    allocates_1G [("l3", PDict [("proto", PStr "tcp")])]
                      override_spec None
                    _ (KeyError "l2") scenario_burst eq_refl eq_refl)).
  - apply (proj1 (proj2 (configuration_errors_come_late
                    allocates_1G [("l2", PDict [("srcmac", PStr
                      "00:00:00:00:00:00")])]
                    override_spec None _ (KeyError "framesize")
                    ["2000"; ""; "1900"] eq_refl eq_refl))).
Defined.

(** ** Arguments and frame sizes the methods do not check *)

Lemma truediv_zero (a : spec_float) : truediv a 0 = Err ZeroDivisionError.
Proof. reflexivity. Qed.

Ltac run_steps Ht :=
  repeat (cbv [lift ret raise emit fst snd float_at index nth_error rbind];
          cbn [app];
          rewrite ?float_of_int_cases, ?(truediv_cases _ _ Ht);
          repeat match goal with
                 | H : fitsb _ = _ |- _ => rewrite H
                 end).

Section Unchecked.

Variable traffic_defaults : dict.
Variable merge_spec : dict -> dict -> result dict.
Variable traffic : option dict.
Variable traffic_ : dict.
Hypothesis Heff :
  effective_traffic traffic_defaults merge_spec traffic = Ok traffic_.

Lemma send_cont_traffic_zero (fs : pyval) (framerate : Z) (ms : bool)
  (ins : list string) (tr : list event) (tx rx mn mx av : Z)
  (rest : list string) :
  framesize_of traffic_ = Ok fs ->
  get_user_traffic "continuous" (ContConf 0 framerate ms) traffic_
    throughput_stats ins = (tr, Done [tx; rx; mn; mx; av] rest) ->
  send_cont_traffic traffic_defaults merge_spec traffic 0 framerate ms ins
  = (tr, Raised (if fitsb tx then ZeroDivisionError else OverflowError)
           rest).
Proof.
  intros Hfs Hget. unfold send_cont_traffic, bind. rewrite Heff.
  cbv [lift ret]. unfold throughput_stats in Hget. rewrite Hget, Hfs.
  cbv [lift ret raise emit fst snd float_at index nth_error rbind].
  rewrite float_of_int_cases. destruct (fitsb tx);
    rewrite ?truediv_zero; cbn [app]; now rewrite ?app_nil_r.
Qed.

Lemma send_cont_traffic_not_a_number (fs : pyval) (t framerate : Z)
  (ms : bool) (ins : list string) (tr : list event) (tx rx mn mx av : Z)
  (rest : list string) :
  framesize_of traffic_ = Ok fs -> not_a_number fs ->
  t <> 0 -> fitsb t = true -> fitsb tx = true -> fitsb rx = true ->
  get_user_traffic "continuous" (ContConf t framerate ms) traffic_
    throughput_stats ins = (tr, Done [tx; rx; mn; mx; av] rest) ->
  send_cont_traffic traffic_defaults merge_spec traffic t framerate ms ins
  = (tr, Raised TypeError rest).
Proof.
  intros Hfs Hnan Ht Hft Hftx Hfrx Hget.
  unfold send_cont_traffic, bind. rewrite Heff.
  cbv [lift ret]. unfold throughput_stats in Hget. rewrite Hget, Hfs.
  run_steps Ht.
  destruct fs; try contradiction; cbv [mul_float]; run_steps Ht;
    now rewrite ?app_nil_r.
Qed.

End Unchecked.

(** X8.  A duration of zero is not refused: the continuous and throughput
    tests print their request, collect the five answers and then fail on the
    first division, with [ZeroDivisionError] (or [OverflowError] when the
    first answer is beyond the range of doubles), whatever the frame
    size. *)
Theorem zero_duration_fails_after_dialogue (traffic_defaults : dict)
  (merge_spec : dict -> dict -> result dict) (traffic : option dict)
  (traffic_ : dict) (fs : pyval) (framerate trials : Z)
  (lossrate : spec_float) (ms_c ms_t : bool) (ins : list string)
  (tr : list event) (tx rx mn mx av : Z) (rest : list string) :
  effective_traffic traffic_defaults merge_spec traffic = Ok traffic_ ->
  framesize_of traffic_ = Ok fs ->
  get_user_traffic "continuous" (ContConf 0 framerate ms_c) traffic_
    throughput_stats ins = (tr, Done [tx; rx; mn; mx; av] rest) ->
  let failure := if fitsb tx then ZeroDivisionError else OverflowError in
  send_cont_traffic traffic_defaults merge_spec traffic 0 framerate ms_c ins
  = (tr, Raised failure rest) /\
  send_rfc2544_throughput traffic_defaults merge_spec traffic trials 0
    lossrate ms_t ins
  = reword "throughput" (ThroughputConf trials 0 lossrate ms_t)
      (tr, Raised failure rest).
Proof.
  intros Heff Hfs Hget failure.
  pose proof (send_cont_traffic_zero _ _ _ _ Heff fs framerate ms_c ins tr
                tx rx mn mx av rest Hfs Hget) as Hc.
  split; [exact Hc|].
  rewrite (throughput_as_continuous _ _ _ trials 0 framerate lossrate ms_c
             ms_t ins).
  now rewrite Hc.
Qed.

Lemma zero_duration_fails_after_dialogue_witness :
  send_rfc2544_throughput defaults64 override_spec None 3 0 (S754_zero false)
    false scenario_throughput
  = ([Announce "throughput" (ThroughputConf 3 0 (S754_zero false) false)
        defaults64;
      AskStat "frames tx"; AskCorrect 2000;
      AskStat "frames rx"; AskCorrect 1900;
      AskStat "min latency"; AskCorrect 10;
      AskStat "max latency"; AskCorrect 50;
      AskStat "avg latency"; AskCorrect 25],
     Raised ZeroDivisionError []).
Proof.
  apply (proj2 (zero_duration_fails_after_dialogue defaults64 override_spec
                  None defaults64 (PInt 64) 0 3 (S754_zero false) false false
                  scenario_throughput _ 2000 1900 10 50 25 []
                  eq_refl eq_refl eq_refl)).
Defined.

(** X9.  The frame rate given to the burst test is never used, and its
    duration is only printed: two burst tests that differ in these
    arguments end the same way and differ at most in the request printed
    first.  Likewise the frame rate and the multistream flag of the
    continuous test are only printed. *)
Theorem printed_only_arguments (can_allocate : ResultsConstants -> Z -> bool)
  (traffic_defaults : dict)
  (merge_spec : dict -> dict -> result dict) (traffic : option dict)
  (numpkts t : Z) (ins : list string) :
  (forall time framerate framerate',
      send_burst_traffic can_allocate traffic_defaults merge_spec traffic
        numpkts time
        framerate ins
      = send_burst_traffic can_allocate traffic_defaults merge_spec traffic
        numpkts time
          framerate' ins) /\
  (forall time time' framerate framerate',
      send_burst_traffic can_allocate traffic_defaults merge_spec traffic
        numpkts time'
        framerate' ins
      = reword "burst" (BurstConf numpkts time')
          (send_burst_traffic can_allocate traffic_defaults merge_spec traffic
            numpkts time
             framerate ins)) /\
  (forall framerate framerate' ms ms',
      send_cont_traffic traffic_defaults merge_spec traffic t framerate' ms'
        ins
      = reword "continuous" (ContConf t framerate' ms')
          (send_cont_traffic traffic_defaults merge_spec traffic t framerate
             ms ins)).
Proof.
  split; [reflexivity|]. split.
  - intros time time' framerate framerate'.
    unfold send_burst_traffic, send_burst_traffic_frame, bind.
    destruct (effective_traffic traffic_defaults merge_spec traffic)
      as [traffic_|e]; [|reflexivity].
    cbv [lift ret].
    destruct (get_user_traffic_label "burst" "burst"
                (BurstConf numpkts time') (BurstConf numpkts time)
                traffic_ burst_stats ins) as [H1 H2].
    unfold burst_stats in H1, H2. rewrite H1, H2.
    destruct (collect _ [] ins) as [tr [vs rest| |e rest]]; try reflexivity.
    cbn [fst snd].
    match goal with
    | |- context [emit [] (emit (_ :: tr) ?k)] => destruct k as [tr' st']
    end.
    destruct st'; reflexivity.
  - intros framerate framerate' ms ms'.
    unfold send_cont_traffic, bind.
    destruct (effective_traffic traffic_defaults merge_spec traffic)
      as [traffic_|e]; [|reflexivity].
    cbv [lift ret].
    destruct (get_user_traffic_label "continuous" "continuous"
                (ContConf t framerate' ms') (ContConf t framerate ms)
                traffic_ throughput_stats ins) as [H1 H2].
    unfold throughput_stats in H1, H2. rewrite H1, H2.
    destruct (collect _ [] ins) as [tr [vs rest| |e rest]]; reflexivity.
Qed.

Lemma append_empty (s : string) : (s ++ "")%string = s.
Proof. induction s as [|c s IH]; [reflexivity|]. simpl. now rewrite IH. Qed.

Lemma repeat_empty (n : nat) : repeat_string "" n = "".
Proof. induction n as [|n IH]; [reflexivity|]. exact IH. Qed.

Lemma utf8_decode_some (a : ascii) (l : list ascii) :
  utf8_decode (a :: l) <> Some [].
Proof.
  cbn [utf8_decode].
  repeat match goal with
         | |- context [option_map _ ?x] => destruct x; cbn [option_map]
         | |- context [if ?b then _ else _] => destruct b
         | |- context [match ?r with [] => _ | _ :: _ => _ end] =>
             destruct r
         end; discriminate.
Qed.

Lemma text_length_zero (s : string) : text_length s = 0 -> s = "".
Proof.
  destruct s as [|c s]; [reflexivity|]. unfold text_length.
  cbn [list_ascii_of_string].
  pose proof (utf8_decode_some c (list_ascii_of_string s)) as H.
  destruct (utf8_decode (c :: list_ascii_of_string s)) as [[|x t]|].
  - contradiction.
  - cbn [List.length]. lia.
  - cbn [String.length]. lia.
Qed.

(** A string that can be repeated [n] times is repeated [n] times. *)
Lemma repeat_text_repeats (alloc : Z -> bool) (s : string) (n : Z) :
  repeats alloc s n ->
  repeat_text alloc s n = Ok (repeat_string s (Z.to_nat n)).
Proof.
  unfold repeats, repeat_text.
  generalize (max_size / n) as m. intros m. unfold max_size.
  intros (Hn & H).
  destruct (Z.ltb_spec n (- 2 ^ 63)) as [H1|H1]; [lia|].
  destruct (Z.ltb_spec (2 ^ 63 - 1) n) as [H2|H2]; [lia|]. cbn [orb].
  destruct (Z.ltb_spec n 1) as [H3|H3].
  { destruct n; try lia; reflexivity. }
  destruct (Z.eqb_spec n 1) as [->|H4].
  { change (Z.to_nat 1) with 1%nat. cbn [repeat_string].
    now rewrite append_empty. }
  destruct H as [H|(H5 & H)]; [lia|].
  destruct (Z.ltb_spec m (text_length s)) as [H6|H6]; [lia|].
  destruct (Z.eqb_spec (text_length s) 0) as [H7|H7].
  { apply text_length_zero in H7. subst s. now rewrite repeat_empty. }
  destruct H as [H|H]; [contradiction|]. now rewrite H.
Qed.

(** A count that is no index-sized integer is refused. *)
Lemma repeat_text_overflow (alloc : Z -> bool) (s : string) (n : Z) :
  n < - 2 ^ 63 \/ max_size < n ->
  repeat_text alloc s n = Err OverflowError.
Proof.
  unfold repeat_text. intros H.
  destruct (Z.ltb_spec n (- 2 ^ 63)) as [H1|H1]; [reflexivity|].
  destruct (Z.ltb_spec max_size n) as [H2|H2]; [reflexivity|]. lia.
Qed.

(** X10.  A frame size that is no number (a string, [None], a dictionary)
    is not refused before the dialogue.  The continuous and throughput tests
    raise [TypeError] once the answers are in, at the product of the
    transmitted frames by the frame size.  The burst test raises
    [TypeError] for [None] and for a dictionary, but takes a string for a
    sequence to repeat: when the string can be repeated [numpkts] times and
    as many times as frames were received (the counts are index-sized
    integers, the results are no longer than a string can be and fit in
    memory), the test returns its result, having stored the repeated
    strings under TX_BYTES and RX_BYTES; when [numpkts] is no index-sized
    integer it raises [OverflowError]. *)
Theorem frame_size_is_not_checked
  (can_allocate : ResultsConstants -> Z -> bool) (traffic_defaults : dict)
  (merge_spec : dict -> dict -> result dict) (traffic : option dict)
  (traffic_ : dict) (fs : pyval) (ins : list string) (tr : list event)
  (rest : list string) :
  effective_traffic traffic_defaults merge_spec traffic = Ok traffic_ ->
  framesize_of traffic_ = Ok fs ->
  not_a_number fs ->
  (forall t framerate trials lossrate ms_c ms_t tx rx mn mx av,
      t <> 0 -> fitsb t = true -> fitsb tx = true -> fitsb rx = true ->
      get_user_traffic "continuous" (ContConf t framerate ms_c) traffic_
        throughput_stats ins = (tr, Done [tx; rx; mn; mx; av] rest) ->
      send_cont_traffic traffic_defaults merge_spec traffic t framerate ms_c
        ins = (tr, Raised TypeError rest) /\
      send_rfc2544_throughput traffic_defaults merge_spec traffic trials t
        lossrate ms_t ins
      = reword "throughput" (ThroughputConf trials t lossrate ms_t)
          (tr, Raised TypeError rest)) /\
  (forall numpkts time framerate r p q,
      get_user_traffic "burst" (BurstConf numpkts time) traffic_ burst_stats
        ins = (tr, Done [r; p; q] rest) ->
      match fs with
      | PStr s =>
          (repeats (can_allocate TX_BYTES) s numpkts ->
           repeats (can_allocate RX_BYTES) s r ->
           send_burst_traffic_frame can_allocate traffic_defaults merge_spec
             traffic numpkts time framerate ins
           = (tr, Done (mkBurstFrame
                          [(TX_FRAMES, PInt numpkts); (RX_FRAMES, PInt r);
                           (TX_BYTES,
                            PStr (repeat_string s (Z.to_nat numpkts)));
                           (RX_BYTES, PStr (repeat_string s (Z.to_nat r)));
                           (PAYLOAD_ERR, PInt p); (SEQ_ERR, PInt q)]
                          (mkBurstResult r p q)) rest)) /\
          (numpkts < - 2 ^ 63 \/ max_size < numpkts ->
           send_burst_traffic_frame can_allocate traffic_defaults merge_spec
             traffic numpkts time framerate ins
           = (tr, Raised OverflowError rest))
      | _ =>
          send_burst_traffic_frame can_allocate traffic_defaults merge_spec
            traffic numpkts time framerate ins = (tr, Raised TypeError rest)
      end).
Proof.
  intros Heff Hfs Hnan. split.
  - intros t framerate trials lossrate ms_c ms_t tx rx mn mx av Ht Hft Hftx
      Hfrx Hget.
    pose proof (send_cont_traffic_not_a_number _ _ _ _ Heff fs t framerate
                  ms_c ins tr tx rx mn mx av rest Hfs Hnan Ht Hft Hftx Hfrx
                  Hget) as Hc.
    split; [exact Hc|].
    rewrite (throughput_as_continuous _ _ _ trials t framerate lossrate ms_c
               ms_t ins).
    now rewrite Hc.
  - intros numpkts time framerate r p q Hget.
    rewrite (send_burst_traffic_frame_outcome _ _ _ _ _ Heff _ _ framerate
               _ _ _ _ _ _ Hget).
    unfold burst_bytes. rewrite Hfs. cbn [rbind].
    destruct fs as [|b|a|f|s|d]; try contradiction; try reflexivity.
    cbn [mul_int]. split.
    + intros Htx Hrx.
      rewrite (repeat_text_repeats _ _ _ Htx). cbn [rbind].
      now rewrite (repeat_text_repeats _ _ _ Hrx).
    + intros Hn. now rewrite (repeat_text_overflow _ _ _ Hn).
Qed.

Lemma frame_size_is_not_checked_witness :
  send_burst_traffic_frame allocates_1G
    [("l2", PDict [("framesize", PStr "64")])]
    override_spec None 2 20 100 scenario_burst
  = ([Announce "burst" (BurstConf 2 20)
        [("l2", PDict [("framesize", PStr "64")])];
      AskStat "frames rx"; AskCorrect 90;
      AskStat "payload errors"; AskCorrect 2;
      AskStat "sequence errors"; AskCorrect 1],
     Done (mkBurstFrame
             [(TX_FRAMES, PInt 2); (RX_FRAMES, PInt 90);
              (TX_BYTES, PStr (repeat_string "64" (Z.to_nat 2)));
              (RX_BYTES, PStr (repeat_string "64" (Z.to_nat 90)));
              (PAYLOAD_ERR, PInt 2); (SEQ_ERR, PInt 1)]
             (mkBurstResult 90 2 1)) []) /\
  send_burst_traffic_frame allocates_1G
    [("l2", PDict [("framesize", PStr "")])]
    override_spec None (2 ^ 63) 20 100 scenario_burst
  = ([Announce "burst" (BurstConf (2 ^ 63) 20)
        [("l2", PDict [("framesize", PStr "")])];
      AskStat "frames rx"; AskCorrect 90;
      AskStat "payload errors"; AskCorrect 2;
      AskStat "sequence errors"; AskCorrect 1],
     Raised OverflowError []) /\
  send_cont_traffic [("l2", PDict [("framesize", PStr "64")])]
    override_spec None 20 0 false scenario_throughput
  = ([Announce "continuous" (ContConf 20 0 false)
        [("l2", PDict [("framesize", PStr "64")])];
      AskStat "frames tx"; AskCorrect 2000;
      AskStat "frames rx"; AskCorrect 1900;
      AskStat "min latency"; AskCorrect 10;
      AskStat "max latency"; AskCorrect 50;
      AskStat "avg latency"; AskCorrect 25],
     Raised TypeError []).
Proof.
  split; [|split].
  - apply (proj1 (proj2 (frame_size_is_not_checked allocates_1G
                           [("l2", PDict [("framesize", PStr "64")])]
                           override_spec None _ (PStr "64") scenario_burst
                           _ [] eq_refl eq_refl I)
                    2 20 100 90 2 1 eq_refl)).
    + vm_compute. split; [split; discriminate|]. right.
      split; [discriminate|]. now right.
    + vm_compute. split; [split; discriminate|]. right.
      split; [discriminate|]. now right.
  - apply (proj2 (proj2 (frame_size_is_not_checked allocates_1G
                           [("l2", PDict [("framesize", PStr "")])]
                           override_spec None _ (PStr "") scenario_burst
                           _ [] eq_refl eq_refl I)
                    (2 ^ 63) 20 100 90 2 1 eq_refl)).
    right. reflexivity.
  - apply (proj1 (proj1 (frame_size_is_not_checked allocates_1G
                           [("l2", PDict [("framesize", PStr "64")])]
                           override_spec None _ (PStr "64")
                           scenario_throughput _ [] eq_refl eq_refl I)
                    20 0 3 (S754_zero false) false false 2000 1900 10 50 25
                    ltac:(discriminate) eq_refl eq_refl eq_refl eq_refl)).
Defined.

(** ** The shape of a throughput record *)

Lemma send_cont_traffic_shape (traffic_defaults : dict)
  (merge_spec : dict -> dict -> result dict) (traffic : option dict)
  (t framerate : Z) (ms : bool) (ins : list string) (tr : list event)
  (rec : record) (rest : list string) :
  send_cont_traffic traffic_defaults merge_spec traffic t framerate ms ins
  = (tr, Done rec rest) ->
  map fst rec = throughput_keys /\
  Forall (fun kv => exists f, snd kv = PFloat f) rec /\
  field THROUGHPUT_TX_PERCENT rec = Some (PFloat (S754_zero false)) /\
  field THROUGHPUT_RX_PERCENT rec = Some (PFloat (S754_zero false)) /\
  t <> 0.
Proof.
  intros H. unfold send_cont_traffic, bind in H.
  destruct (effective_traffic traffic_defaults merge_spec traffic)
    as [traffic_|e]; [|discriminate].
  cbv [lift ret] in H.
  destruct (get_user_traffic "continuous" (ContConf t framerate ms) traffic_
              _ ins) as [tr0 [vs rest0| |e rest0]] eqn:Hget;
    [|discriminate..].
  destruct (get_user_traffic_done _ _ _ _ _ _ _ _ Hget) as [Hlen _].
  apply five_values in Hlen as (tx & rx & mn & mx & av & ->).
  destruct (framesize_of traffic_) as [fs|e]; [|discriminate].
  assert (Ht : t <> 0).
  { intros ->.
    cbv [lift ret raise emit rbind float_at index nth_error fst snd] in H.
    rewrite (float_of_int_cases tx) in H.
    destruct (fitsb tx); [rewrite truediv_zero in H|]; discriminate. }
  invert_method H.
  inversion H; subst.
  repeat split; try assumption; try reflexivity.
  repeat constructor; eexists; reflexivity.
Qed.

(** X11.  Whatever the configuration and the dialogue, a record returned by
    the continuous test or by the throughput test has exactly the nine keys
    of the throughput results, each once and in the order of the source,
    all its values are floats, and the two percentage fields are 0.0; and a
    record is returned only for a duration other than zero. *)
Theorem throughput_record_shape (traffic_defaults : dict)
  (merge_spec : dict -> dict -> result dict) (traffic : option dict)
  (t framerate trials : Z) (lossrate : spec_float) (ms_c ms_t : bool)
  (ins : list string) (tr : list event) (rec : record) (rest : list string) :
  send_cont_traffic traffic_defaults merge_spec traffic t framerate ms_c ins
  = (tr, Done rec rest) \/
  send_rfc2544_throughput traffic_defaults merge_spec traffic trials t
    lossrate ms_t ins = (tr, Done rec rest) ->
  map fst rec = throughput_keys /\
  Forall (fun kv => exists f, snd kv = PFloat f) rec /\
  field THROUGHPUT_TX_PERCENT rec = Some (PFloat (S754_zero false)) /\
  field THROUGHPUT_RX_PERCENT rec = Some (PFloat (S754_zero false)) /\
  t <> 0.
Proof.
  intros [H|H].
  - exact (send_cont_traffic_shape _ _ _ _ _ _ _ _ _ _ H).
  - rewrite (throughput_as_continuous _ _ _ trials t 0 lossrate false ms_t
               ins) in H.
    apply reword_inv in H as [tr' H].
    exact (send_cont_traffic_shape _ _ _ _ _ _ _ _ _ _ H).
Qed.

Lemma throughput_record_shape_witness :
  map fst (derived 20 64 2000 1900 10 50 25) = throughput_keys /\
  Forall (fun kv => exists f, snd kv = PFloat f)
         (derived 20 64 2000 1900 10 50 25) /\
  field THROUGHPUT_TX_PERCENT (derived 20 64 2000 1900 10 50 25)
  = Some (PFloat (S754_zero false)) /\
  field THROUGHPUT_RX_PERCENT (derived 20 64 2000 1900 10 50 25)
  = Some (PFloat (S754_zero false)) /\
  20 <> 0.
Proof.
  eapply (throughput_record_shape defaults64 override_spec None 20 0 3
            (S754_zero false) false false scenario_throughput _ _ []).
  left. vm_compute. reflexivity.
Defined.

(** ** Blanks around what the operator types *)

Lemma blanks_codes (l : list ascii) :
  blanks l ->
  Forall (fun c => code c < 128) l /\
  Forall (fun c => is_space c = true) (map code l).
Proof.
  induction 1 as [|c l Hc _ [IH1 IH2]]; [split; constructor|].
  unfold blank in Hc. apply andb_prop in Hc as [H1 H2].
  apply Z.ltb_lt in H2. split; simpl; constructor; assumption.
Qed.

Lemma lstrip_spaces (pre l : list Z) :
  Forall (fun c => is_space c = true) pre -> lstrip (pre ++ l) = lstrip l.
Proof.
  induction 1 as [|c pre Hc _ IH]; [reflexivity|].
  simpl. now rewrite Hc.
Qed.

Lemma strip_padded (pre post l : list Z) :
  Forall (fun c => is_space c = true) pre ->
  Forall (fun c => is_space c = true) post ->
  Forall (fun c => is_space c = false) l ->
  strip (pre ++ l ++ post) = l.
Proof.
  intros Hpre Hpost Hl. unfold strip.
  rewrite (lstrip_spaces _ _ Hpre).
  assert (H1 : lstrip (l ++ post) = l ++ post \/ l = []).
  { destruct Hl as [|c l Hc Hl]; [now right|]. left. simpl. now rewrite Hc. }
  destruct H1 as [H1| ->].
  - rewrite H1, rev_app_distr.
    rewrite lstrip_spaces by (apply Forall_rev, Hpost).
    rewrite lstrip_id by (apply Forall_rev, Hl).
    apply rev_involutive.
  - simpl.
    assert (H2 : forall p, Forall (fun c => is_space c = true) p ->
                           lstrip p = []).
    { induction 1 as [|c p Hc _ IH]; [reflexivity|]. simpl. now rewrite Hc. }
    rewrite (H2 _ Hpost). simpl. reflexivity.
Qed.

Lemma show_chars (n : Z) :
  exists l, show n = string_of_list_ascii l /\ Forall plain l.
Proof.
  unfold show. destruct (Z.to_int n) as [d|d]; eexists; split;
    try reflexivity.
  - apply chars_plain.
  - constructor; [split; reflexivity | apply chars_plain].
Qed.

Lemma py_int_padded (pre post : list ascii) (n : Z) :
  blanks pre -> blanks post -> py_int (padded pre post (show n)) = Some n.
Proof.
  intros Hpre Hpost.
  transitivity (py_int (show n)); [|apply py_int_show].
  destruct (show_chars n) as (l & -> & Hl).
  destruct (blanks_codes _ Hpre) as [Apre Spre].
  destruct (blanks_codes _ Hpost) as [Apost Spost].
  unfold py_int, padded.
  rewrite !list_ascii_of_string_of_list_ascii.
  rewrite (utf8_decode_ascii l (plain_ascii _ Hl)).
  rewrite utf8_decode_ascii
    by (repeat (apply Forall_app; split); auto using plain_ascii).
  rewrite !map_app.
  now rewrite (strip_padded _ _ _ Spre Spost (plain_no_space _ Hl)),
    (strip_id _ (plain_no_space _ Hl)).
Qed.

Lemma lower_char_blank (c : ascii) : blank c = true -> lower_char c = c.
Proof.
  destruct c as [[] [] [] [] [] [] [] []]; try reflexivity; discriminate.
Qed.

Lemma has_blank_lower (s : string) : has_blank s -> has_blank (lower s).
Proof.
  intros (c & Hin & Hc). exists c. split; [|exact Hc].
  induction s as [|a s IH]; simpl in *; [contradiction|].
  destruct Hin as [->|Hin]; [left; now apply lower_char_blank | right; auto].
Qed.

Lemma has_blank_unclear (answer : string) : has_blank answer -> unclear answer.
Proof.
  intros H. apply has_blank_lower in H as (c & Hin & Hc).
  split.
  - destruct (accepts (lower answer)) eqn:E; [|reflexivity].
    apply accepts_iff in E. exfalso.
    simpl in E. decompose [or] E; try contradiction;
      match goal with H : _ = lower answer |- _ => rewrite <- H in Hin end;
      simpl in Hin; decompose [or] Hin; subst; try discriminate;
      contradiction.
  - destruct (rejects (lower answer)) eqn:E; [|reflexivity].
    apply rejects_iff in E. exfalso.
    simpl in E. decompose [or] E; try contradiction;
      match goal with H : _ = lower answer |- _ => rewrite <- H in Hin end;
      simpl in Hin; decompose [or] Hin; subst; try discriminate;
      contradiction.
Qed.

(** X12.  Blanks typed around an integer are ignored, blanks in a
    confirmation are not.  The blanks meant are those of ASCII: tab, line
    feed, vertical tab, form feed, carriage return and space (the separators
    of codes 28 to 31 are no blanks for [int]).  A line made of the digits
    of [n] with blanks before and after is read as [n], but an answer that
    holds a blank, such as 'yes' followed by a space, is neither a yes nor a
    no, and the confirmation of [n] is asked again after the reminder. *)
Theorem blanks_around_answers (stat_type : string) (pre post : list ascii)
  (n : Z) (answer : string) (rest : list string) :
  blanks pre -> blanks post -> has_blank answer ->
  py_int (padded pre post (show n)) = Some n /\
  _get_user_traffic_stat stat_type
    (padded pre post (show n) :: answer :: rest)
  = emit [AskStat stat_type; AskCorrect n; SayYesNo]
         (confirm_loop stat_type n rest).
Proof.
  intros Hpre Hpost Hb.
  pose proof (py_int_padded pre post n Hpre Hpost) as Hp.
  split; [exact Hp|].
  destruct (has_blank_unclear answer Hb) as [Ha Hr].
  rewrite (stat_valid _ _ _ _ Hp), (confirm_other _ _ _ _ Ha Hr).
  now rewrite emit_emit.
Qed.

Lemma blanks_around_answers_witness :
  py_int "  -42 " = Some (-42) /\
  _get_user_traffic_stat "sequence errors" ["  -42 "; "yes "; "yes"]
  = ([AskStat "sequence errors"; AskCorrect (-42); SayYesNo;
      AskCorrect (-42)], Done (-42) []).
Proof.
  apply (blanks_around_answers "sequence errors" [" "; " "]%char [" "]%char
           (-42) "yes " ["yes"]).
  - repeat constructor.
  - repeat constructor.
  - exists " "%char. split; [simpl; auto | reflexivity].
Defined.

(** ** What is printed does not depend on lines still to come *)

Lemma stable_ret {A} (a : A) : prefix_stable (ret a).
Proof. intros ins tr H. discriminate. Qed.

Lemma stable_lift {A} (r : result A) : prefix_stable (lift r).
Proof. destruct r; intros ins tr H; discriminate. Qed.

Lemma stable_print (e : event) : prefix_stable (print e).
Proof. intros ins tr H. discriminate. Qed.

Lemma stable_bind {A B} (m : io A) (k : A -> io B) :
  reads_only_consumed m -> prefix_stable m ->
  (forall a, prefix_stable (k a)) ->
  prefix_stable (bind m k).
Proof.
  intros Hr Hm Hk ins tr H more. unfold bind in H |- *.
  destruct (m ins) as [tr1 [a mid| |e mid]] eqn:E; [| |discriminate].
  - apply emit_inv in H as (t2 & H & ->).
    destruct (Hr _ _ _ _ E) as (used & -> & Hu).
    rewrite <- app_assoc, Hu.
    destruct (Hk a _ _ H more) as [tr' Htr'].
    exists tr'. rewrite fst_emit, Htr'. now rewrite app_assoc.
  - inversion H; subst.
    destruct (Hm _ _ E more) as [tr' Htr'].
    destruct (m (ins ++ more)) as [t [a mid| |e mid]]; simpl in *; subst.
    + eexists. rewrite <- app_assoc. reflexivity.
    + now exists tr'.
    + now exists tr'.
Qed.

Lemma confirm_starts (stat_type : string) (n : Z) (ins : list string) :
  exists tr, fst (confirm_loop stat_type n ins) = AskCorrect n :: tr.
Proof.
  destruct ins as [|a rest]; [now exists []|].
  simpl. destruct (accepts (lower a)); [now exists []|].
  destruct (rejects (lower a)); simpl; eauto.
Qed.

Ltac stable_step eqn :=
  let tr := fresh "tr" in
  let H := fresh "H" in
  let t := fresh "t" in
  let more := fresh "more" in
  let tr' := fresh "tr'" in
  let Htr' := fresh "Htr'" in
  cbv beta in *;
  match goal with
  | IH : forall tr, _ = (tr, Blocked) -> _ |- _ =>
      intros tr H more;
      apply emit_inv in H as (t & H & ->);
      destruct (IH _ H more) as [tr' Htr'];
      exists tr'; cbn [app]; rewrite eqn by assumption;
      rewrite fst_emit, Htr', app_assoc; reflexivity
  end.

Lemma stat_prefix_stable (stat_type : string) :
  prefix_stable (_get_user_traffic_stat stat_type).
Proof.
  intros ins.
  apply (proj1 (validator_loops_ind stat_type
           (fun ins r => forall tr, r = (tr, Blocked) ->
              forall more, exists tr',
                fst (_get_user_traffic_stat stat_type (ins ++ more))
                = tr ++ tr')
           (fun m ins r => forall tr, r = (tr, Blocked) ->
              forall more, exists tr',
                fst (confirm_loop stat_type m (ins ++ more)) = tr ++ tr')
           ltac:(intros tr H more; inversion H; subst;
                 exact (stat_starts stat_type ([] ++ more)))
           ltac:(intros line rest0 Hp IH;
                 stable_step (stat_invalid stat_type))
           ltac:(intros line m rest0 Hp IH;
                 stable_step (stat_valid stat_type line m))
           ltac:(intros m tr H more; inversion H; subst;
                 exact (confirm_starts stat_type m ([] ++ more)))
           ltac:(discriminate)
           ltac:(intros m answer rest0 Ha Hr IH;
                 stable_step (confirm_reject stat_type m answer))
           ltac:(intros m answer rest0 Ha Hr IH;
                 stable_step (confirm_other stat_type m answer))
           ins)).
Qed.

Lemma collect_prefix_stable (stats : list string) :
  forall acc, prefix_stable (collect stats acc).
Proof.
  induction stats as [|stat more IH]; intros acc; cbn [collect].
  - apply stable_ret.
  - apply stable_bind;
      [apply stat_reads_only_consumed | apply stat_prefix_stable|].
    intros a. apply IH.
Qed.

Lemma get_user_traffic_prefix_stable (traffic_type : string)
  (conf : stream_conf) (flow : dict) (stats : list string) :
  prefix_stable (get_user_traffic traffic_type conf flow stats).
Proof.
  unfold get_user_traffic.
  apply stable_bind; [apply reads_print | apply stable_print|].
  intros _. apply collect_prefix_stable.
Qed.

Ltac stable_method :=
  repeat first
    [ apply stable_ret
    | apply stable_lift
    | apply reads_lift
    | apply get_user_traffic_prefix_stable
    | apply get_user_traffic_reads_only_consumed
    | apply stable_bind
    | intro
    | progress cbv zeta ].

Lemma send_burst_traffic_frame_reads (can_allocate : ResultsConstants -> Z ->
  bool)
  (traffic_defaults : dict)
  (merge_spec : dict -> dict -> result dict) (traffic : option dict)
  (numpkts time framerate : Z) :
  reads_only_consumed
    (send_burst_traffic_frame can_allocate traffic_defaults merge_spec traffic
      numpkts
       time framerate).
Proof. unfold send_burst_traffic_frame. reads_method. Qed.

(** X13.  What has been printed never depends on lines the operator has
    not typed yet: when the validator, the collector or one of the three
    test methods is waiting after some lines, then with any further lines
    behind them its trace begins with exactly the events printed so far. *)
Theorem printed_so_far_is_kept (can_allocate : ResultsConstants -> Z -> bool)
  (traffic_defaults : dict)
  (merge_spec : dict -> dict -> result dict) (traffic : option dict) :
  (forall stat_type, prefix_stable (_get_user_traffic_stat stat_type)) /\
  (forall traffic_type conf flow stats,
      prefix_stable (get_user_traffic traffic_type conf flow stats)) /\
  (forall numpkts time framerate,
      prefix_stable
        (send_burst_traffic can_allocate traffic_defaults merge_spec traffic
          numpkts time
           framerate)) /\
  (forall time framerate multistream,
      prefix_stable
        (send_cont_traffic traffic_defaults merge_spec traffic time framerate
           multistream)) /\
  (forall trials duration lossrate multistream,
      prefix_stable
        (send_rfc2544_throughput traffic_defaults merge_spec traffic trials
           duration lossrate multistream)).
Proof.
  split; [exact stat_prefix_stable|].
  split; [exact get_user_traffic_prefix_stable|].
  split; [|split]; intros.
  - unfold send_burst_traffic.
    apply stable_bind;
      [ apply send_burst_traffic_frame_reads
      | unfold send_burst_traffic_frame; stable_method
      | intro; apply stable_ret ].
  - unfold send_cont_traffic. stable_method.
  - unfold send_rfc2544_throughput. stable_method.
Qed.

Lemma printed_so_far_is_kept_witness :
  exists tr',
    fst (send_cont_traffic defaults64 override_spec None 20 0 false
           (["2000"; ""; "1900"] ++ ["y"; "ten"]))
    = [Announce "continuous" (ContConf 20 0 false) defaults64;
       AskStat "frames tx"; AskCorrect 2000;
       AskStat "frames rx"; AskCorrect 1900] ++ tr'.
Proof.
  apply (proj1 (proj2 (proj2 (proj2 (printed_so_far_is_kept allocates_1G
    defaults64
                                       override_spec None))))
           20 0 false ["2000"; ""; "1900"]).
  reflexivity.
Defined.
